(** * yaml-generator: sanitising and parsing model output

    A shallow embedding of the two drivers of the repository,
    [icl_agent.py] (class [ICLAgent]) and [app.py] (class
    [StreamlitICLAgent]), and the properties of their response
    sanitiser, document parser, knowledge loader and request handlers.

    Layout: Python strings and the string methods the code calls
    ([PyStr]), the fragment of [re] the two patterns need ([Re]), Python
    values, exceptions and the effect monad ([Py]), the external
    collaborators (the record [World]), the two classes, the scripted
    driver ([Driver]), the download link and the page ([App]), a
    concrete world for the examples, and then the theorems. *)

From Stdlib Require Import List NArith ZArith Bool Ascii String Lia Arith.
Import ListNotations.

Set Implicit Arguments.
Set Warnings "-register-all".

(* ================================================================== *)
(** ** Python strings *)
(* ================================================================== *)

Module PyStr.

(** A Python [str] is a sequence of Unicode code points. *)
Definition char := N.
Definition str := list char.

(** ASCII literals. *)
Definition py (s : string) : str := map N_of_ascii (list_ascii_of_string s).
Arguments py s%_string : simpl never.

Definition TAB : char := 9%N.
Definition LF : char := 10%N.
Definition CR : char := 13%N.
Definition SP : char := 32%N.
Definition HASH : char := 35%N.
Definition BT : char := 96%N.     (* the backtick *)

Definition between (lo hi c : char) : bool := (lo <=? c)%N && (c <=? hi)%N.

(** [str.isspace] on one code point: the set [str.strip()] removes. *)
Definition isspace (c : char) : bool :=
  between 0x09%N 0x0D%N c || between 0x1C%N 0x1F%N c || (c =? 0x20)%N
  || (c =? 0x85)%N || (c =? 0xA0)%N || (c =? 0x1680)%N
  || between 0x2000%N 0x200A%N c || (c =? 0x2028)%N || (c =? 0x2029)%N
  || (c =? 0x202F)%N || (c =? 0x205F)%N || (c =? 0x3000)%N.

(** The line boundaries of [str.splitlines()]. *)
Definition islinebreak (c : char) : bool :=
  between 0x0A%N 0x0D%N c || between 0x1C%N 0x1E%N c || (c =? 0x85)%N
  || (c =? 0x2028)%N || (c =? 0x2029)%N.

Fixpoint startswith (p s : str) : bool :=
  match p, s with
  | [], _ => true
  | _ :: _, [] => false
  | a :: p', b :: s' => (a =? b)%N && startswith p' s'
  end.

Fixpoint dropwhile (f : char -> bool) (s : str) : str :=
  match s with
  | [] => []
  | c :: s' => if f c then dropwhile f s' else s
  end.

Definition lstrip (s : str) : str := dropwhile isspace s.
Definition rstrip (s : str) : str := rev (dropwhile isspace (rev s)).
Definition strip (s : str) : str := rstrip (lstrip s).

(** [s.splitlines()]: [cur] is the line being read.  A line is emitted at
    each boundary ("\r\n" counts once) and at the end of the text when
    characters follow the last boundary; no empty last line. *)
Fixpoint splitlines_from (cur : str) (s : str) {struct s} : list str :=
  match s with
  | [] => [cur]
  | c :: s' =>
      if islinebreak c then
        cur ::
        match s' with
        | [] => []
        | d :: s'' =>
            if (c =? CR)%N && (d =? LF)%N
            then match s'' with [] => [] | _ :: _ => splitlines_from [] s'' end
            else splitlines_from [] s'
        end
      else splitlines_from (cur ++ [c]) s'
  end.

Definition splitlines (s : str) : list str :=
  match s with
  | [] => []
  | _ :: _ => splitlines_from [] s
  end.

(** [sep.join(parts)] *)
Fixpoint join (sep : str) (parts : list str) : str :=
  match parts with
  | [] => []
  | [p] => p
  | p :: rest => p ++ sep ++ join sep rest
  end.

(** [s.replace(old, new)] for a non-empty [old]: leftmost occurrences,
    not overlapping.  [skip] counts the characters of a found occurrence
    still to be passed over. *)
Fixpoint replace_go (old new : str) (skip : nat) (s : str) : str :=
  match s with
  | [] => []
  | c :: s' =>
      match skip with
      | S k => replace_go old new k s'
      | O =>
          if startswith old s
          then new ++ replace_go old new (List.length old - 1) s'
          else c :: replace_go old new 0 s'
      end
  end.

(** With an empty [old], Python puts [new] before every character and at
    the end. *)
Definition replace (old new : str) (s : str) : str :=
  match old with
  | [] => new ++ flat_map (fun c => c :: new) s
  | _ :: _ => replace_go old new 0 s
  end.

(** Python truthiness of a string. *)
Definition truthy (s : str) : bool :=
  match s with [] => false | _ :: _ => true end.

(** Occurrence of [p] as a substring of [s]. *)
Definition occurs (p s : str) : Prop := exists a b, s = a ++ p ++ b.

End PyStr.

Import PyStr.

(* ================================================================== *)
(** ** The fragment of [re] the code uses *)
(* ================================================================== *)

Module Re.

(** What matches one character. *)
Inductive atom :=
| Lit (c : char)            (* a literal character *)
| Cls (cs : str)            (* [...] : a character class *)
| Dot.                      (* .  : anything but "\n" *)

Inductive item :=
| One (a : atom)
| Star (a : atom)           (* a*  (greedy) *)
| Eol.                      (* $  under re.MULTILINE *)

Definition regex := list item.

Definition atom_ok (a : atom) (c : char) : bool :=
  match a with
  | Lit d => (d =? c)%N
  | Cls cs => existsb (fun d => (d =? c)%N) cs
  | Dot => negb (c =? LF)%N
  end.

(** [rmatch r s]: the length of the match of [r] at the start of [s], if
    there is one; a star takes as much as it can and gives back one
    character at a time. *)
Fixpoint rmatch (r : regex) : str -> option nat :=
  match r with
  | [] => fun _ => Some 0
  | One a :: r' =>
      fun s =>
        match s with
        | c :: s' => if atom_ok a c then option_map S (rmatch r' s') else None
        | [] => None
        end
  | Eol :: r' =>
      fun s =>
        match s with
        | [] => rmatch r' s
        | c :: _ => if (c =? LF)%N then rmatch r' s else None
        end
  | Star a :: r' =>
      fix star (s : str) : option nat :=
        match s with
        | c :: s' =>
            if atom_ok a c then
              match star s' with
              | Some n => Some (S n)
              | None => rmatch r' s
              end
            else rmatch r' s
        | [] => rmatch r' s
        end
  end.

(** [re.sub(r, repl, s)] for a pattern whose matches are never empty and
    a replacement without group references: leftmost matches, not
    overlapping.  [skip] counts the characters of the current match
    still to be passed over. *)
Fixpoint sub_go (r : regex) (repl : str) (skip : nat) (s : str) : str :=
  match s with
  | [] => []
  | c :: s' =>
      match skip with
      | S k => sub_go r repl k s'
      | O =>
          match rmatch r s with
          | Some (S n) => repl ++ sub_go r repl n s'
          | _ => c :: sub_go r repl 0 s'
          end
      end
  end.

Definition sub (r : regex) (repl : str) (s : str) : str := sub_go r repl 0 s.

Definition lits (s : str) : regex := map (fun c => One (Lit c)) s.

End Re.

(** The sanitiser's patterns and literals. *)
Definition fence : str := [BT; BT; BT].

(** r'```[yamlYAML]*\n' *)
Definition opening_fence_re : Re.regex :=
  Re.lits fence ++ [Re.Star (Re.Cls (py "yamlYAML")); Re.One (Re.Lit LF)].

(** r'#.*$' with flags=re.MULTILINE *)
Definition comment_re : Re.regex :=
  [Re.One (Re.Lit HASH); Re.Star Re.Dot; Re.Eol].

(* ================================================================== *)
(** ** Python values, exceptions and effects *)
(* ================================================================== *)

Module Py.

(** The values a YAML document is made of.  A [dict] keeps its insertion
    order, so it is an association list. *)
Inductive value :=
| VNone
| VBool (b : bool)
| VInt (z : Z)
| VStr (s : str)
| VList (l : list value)
| VDict (d : list (value * value)).

Definition vstr (s : string) : value := VStr (py s).
Arguments vstr s%_string : simpl never.

(** [isinstance(v, dict)] *)
Definition isinstance_dict (v : value) : bool :=
  match v with VDict _ => true | _ => false end.

(** Python truthiness. *)
Definition value_truthy (v : value) : bool :=
  match v with
  | VNone => false
  | VBool b => b
  | VInt z => negb (z =? 0)%Z
  | VStr s => truthy s
  | VList l => match l with [] => false | _ :: _ => true end
  | VDict d => match d with [] => false | _ :: _ => true end
  end.

Fixpoint str_eqb (a b : str) : bool :=
  match a, b with
  | [], [] => true
  | x :: a', y :: b' => (x =? y)%N && str_eqb a' b'
  | _, _ => false
  end.

(** [key in d] for a string key. *)
Definition has_key (key : str) (v : value) : bool :=
  match v with
  | VDict d =>
      existsb (fun kv => match fst kv with
                         | VStr k => str_eqb k key
                         | _ => false
                         end) d
  | _ => false
  end.

(** [d.get(key)] on a dict with string keys. *)
Fixpoint dict_get (A : Type) (key : str) (d : list (str * A)) : option A :=
  match d with
  | [] => None
  | (k, v) :: d' => if str_eqb k key then Some v else dict_get key d'
  end.

(** Exceptions.  Every exception of the model is an instance of
    [Exception]; [YAMLError] stands for [yaml.YAMLError] and its
    subclasses, [OtherException] for any other class (a transport
    failure of the remote call, an [OSError] of the file system, ...).
    [exn_msg] is [str(e)]. *)
Inductive exn_class :=
| ValueError
| FileNotFoundError
| YAMLError
| OtherException (name : str).

Record exn := mk_exn { exn_cls : exn_class; exn_msg : str }.

Definition isinstance_YAMLError (e : exn) : bool :=
  match exn_cls e with YAMLError => true | _ => false end.

Inductive outcome (A : Type) :=
| Return (a : A)
| Raise (e : exn).
Arguments Return {A} a.
Arguments Raise {A} e.

(** What a run leaves behind: the lines printed, the messages sent to
    [st.error], the number of remote calls and of clock readings so far,
    and the files written (path, content), latest first. *)
Record state := mk_state {
  stdout : list str;
  st_errors : list str;
  calls : nat;
  ticks : nat;
  files : list (str * str)
}.

Definition M (A : Type) := state -> outcome A * state.

Definition ret {A} (a : A) : M A := fun st => (Return a, st).
Definition raise {A} (e : exn) : M A := fun st => (Raise e, st).
Definition bind {A B} (c : M A) (k : A -> M B) : M B :=
  fun st =>
    match c st with
    | (Return a, st') => k a st'
    | (Raise e, st') => (Raise e, st')
    end.

(** [try: body except ...: handler]; [handler e = None] when no [except]
    clause matches [e]. *)
Definition try_except {A} (body : M A) (handler : exn -> option (M A)) : M A :=
  fun st =>
    match body st with
    | (Return a, st') => (Return a, st')
    | (Raise e, st') =>
        match handler e with
        | Some h => h st'
        | None => (Raise e, st')
        end
    end.

(** [except Exception as e: h] and [except yaml.YAMLError as e: h] *)
Definition except_Exception {A} (h : exn -> M A) : exn -> option (M A) :=
  fun e => Some (h e).
Definition except_YAMLError {A} (h : exn -> M A) : exn -> option (M A) :=
  fun e => if isinstance_YAMLError e then Some (h e) else None.

(** A call that may raise and has no other effect. *)
Definition lift {A} (o : outcome A) : M A := fun st => (o, st).

(** [print(line)] and [st.error(message)] *)
Definition print (line : str) : M unit :=
  fun st => (Return tt, mk_state (stdout st ++ [line]) (st_errors st)
                                 (calls st) (ticks st) (files st)).
Definition st_error (message : str) : M unit :=
  fun st => (Return tt, mk_state (stdout st) (st_errors st ++ [message])
                                 (calls st) (ticks st) (files st)).

End Py.

Import Py.

Declare Scope py_scope.
Delimit Scope py_scope with py.
Notation "x <- c1 ;; c2" := (bind c1 (fun x => c2))
  (at level 61, c1 at next level, right associativity) : py_scope.
Notation "c1 ;; c2" := (bind c1 (fun _ => c2))
  (at level 61, right associativity) : py_scope.
Open Scope py_scope.

(* ================================================================== *)
(** ** The external collaborators *)
(* ================================================================== *)

(** Keyword arguments of [yaml.dump]; [None] is "not given". *)
Record dump_opts := mk_dump_opts {
  default_flow_style : option bool;
  allow_unicode : option bool;
  sort_keys : option bool
}.

(** PyYAML, the remote model, the PDF reader, the clock and the file
    system are not code of this repository: they are parameters.  The
    remote model and the clock may answer differently at each call, so
    both are indexed by the number of earlier calls.  The remote call
    takes the list of the prompt parts (one part for a single prompt)
    and gives the [text] of the response. *)
Record World := mk_World {
  datetime : Type;
  datetime_now : nat -> datetime;                    (* datetime.now() *)
  datetime_str : datetime -> str;                    (* str(dt) *)
  strftime : datetime -> str -> str;                 (* dt.strftime(fmt) *)
  yaml_safe_load_all : str -> outcome (list value);  (* list(yaml.safe_load_all(s)) *)
  yaml_dump : dump_opts -> value -> str;             (* yaml.dump(v, ...) *)
  generate_content : nat -> list str -> outcome str; (* model.generate_content(parts).text *)
  path_exists : str -> bool;                         (* os.path.exists(p) *)
  pdf_pages : str -> outcome (list str);             (* extract_text() of each page of PdfReader(p) *)
  makedirs : str -> outcome unit;                    (* os.makedirs(p, exist_ok=True) *)
  open_write : str -> str -> outcome unit            (* open(p, 'w', encoding='utf-8') and write *)
}.

Section Effects.
Variable w : World.

Definition now : M (datetime w) :=
  fun st => (Return (datetime_now w (ticks st)),
             mk_state (stdout st) (st_errors st) (calls st) (S (ticks st)) (files st)).

Definition model_generate (parts : list str) : M str :=
  fun st => (generate_content w (calls st) parts,
             mk_state (stdout st) (st_errors st) (S (calls st)) (ticks st) (files st)).

Definition write_file (path content : str) : M unit :=
  fun st =>
    match open_write w path content with
    | Return _ => (Return tt, mk_state (stdout st) (st_errors st) (calls st) (ticks st)
                                      ((path, content) :: files st))
    | Raise e => (Raise e, st)
    end.

End Effects.

(** [os.path.join(a, b)] on POSIX paths. *)
Definition path_join (a b : str) : str :=
  if startswith (py "/") b then b
  else match rev a with
       | [] => b
       | c :: _ => if (c =? 47)%N then a ++ b else a ++ py "/" ++ b
       end.

(** The static default knowledge base, written out in both classes. *)
Definition default_knowledge : value :=
  VDict [ (vstr "schema",    VDict [(vstr "components", VList []); (vstr "parameters", VList [])]);
          (vstr "rules",     VDict [(vstr "validation", VList []); (vstr "security", VList [])]);
          (vstr "practices", VDict [(vstr "deployment", VList []); (vstr "configuration", VList [])]);
          (vstr "patterns",  VDict [(vstr "common", VList []); (vstr "recommended", VList [])]) ].

(* ================================================================== *)
(** ** icl_agent.py: class ICLAgent *)
(* ================================================================== *)

Module ICLAgent.

(** The attributes of [self] ([self.model] is the remote model of the
    world). *)
Record agent := mk_agent {
  doc_path : str;
  output_dir : str;
  knowledge : value
}.

Definition set_knowledge (self : agent) (k : value) : agent :=
  mk_agent (doc_path self) (output_dir self) k.

(** The indicator strings, code point by code point as the file has
    them. *)
Definition indicator_info : str := [0x201a; 0xd1; 0x3c0; 0xd4; 0x220f; 0xe8]%N.
Definition indicators : list (str * str) :=
  [ (py "info", indicator_info);
    (py "think", [0xf8ff; 0xfc; 0xa7; 0xee]%N);
    (py "action", [0xf8ff; 0xfc; 0xe9; 0xd8]%N);
    (py "error", [0x201a; 0xf9; 0xe5]%N);
    (py "success", [0x201a; 0xfa; 0xd6]%N) ].

Definition log (message : str) (type : str) : M unit :=
  let prefix := match dict_get type indicators with
                | Some p => p
                | None => indicator_info
                end in
  print (prefix ++ py " " ++ message).

Definition _clean_response (text : str) : str :=
  if negb (truthy text) then []
  else
    let text := Re.sub opening_fence_re [] text in
    let text := replace fence [] text in
    let text := Re.sub comment_re [] text in
    let lines := splitlines (strip text) in
    let cleaned_lines :=
      map (replace [TAB] [SP; SP])
          (filter (fun line => truthy (strip line)) lines) in
    join [LF] cleaned_lines.

Section WithWorld.
Variable w : World.

Definition _parse_yaml_safely (content : str) : M value :=
  try_except
    (docs <- lift (yaml_safe_load_all w content) ;;
     match docs with
     | [] => raise (mk_exn ValueError (py "Empty YAML content"))
     | [d] => ret d
     | _ :: _ :: _ => ret (VDict [(vstr "documents", VList docs)])
     end)
    (except_YAMLError (fun e =>
       log (py "YAML parsing failed: " ++ exn_msg e) (py "error") ;;
       t <- now w ;;
       ret (VDict [ (vstr "error", vstr "Failed to parse YAML");
                    (vstr "timestamp", VStr (datetime_str w t)) ]))).

Definition save_opts : dump_opts :=
  mk_dump_opts (Some false) (Some true) (Some false).
Definition prompt_opts : dump_opts :=
  mk_dump_opts (Some false) None None.

Definition _save_yaml (self : agent) (data : value) (name : option str) : M str :=
  try_except
    (t <- now w ;;
     let timestamp := strftime w t (py "%Y%m%d_%H%M%S") in
     let filename :=
       match name with
       | Some ((_ :: _) as n) => n ++ py "_" ++ timestamp ++ py ".yaml"
       | _ => py "config_" ++ timestamp ++ py ".yaml"
       end in
     let filepath := path_join (output_dir self) filename in
     write_file w filepath (yaml_dump w save_opts data) ;;
     log (py "Configuration saved to " ++ filepath) (py "success") ;;
     ret filepath)
    (except_Exception (fun e =>
       log (py "Error saving YAML: " ++ exn_msg e) (py "error") ;;
       raise e)).

Definition knowledge_prompt : str := py "
            Extract key information from the documentation and format it as YAML with the following structure:
            schema:
              components: []
              parameters: []
            rules:
              validation: []
              security: []
            practices:
              deployment: []
              configuration: []
            patterns:
              common: []
              recommended: []

            Output **only valid YAML**, without markdown formatting or extra text.
            ".

(** The [try] block of [_load_knowledge]; it returns the updated
    [self]. *)
Definition _load_knowledge_try (self : agent) : M agent :=
  log (py "Reading documentation...") (py "think") ;;
  (if negb (path_exists w (doc_path self))
   then raise (mk_exn FileNotFoundError
                 (py "Documentation file not found: " ++ doc_path self))
   else ret tt) ;;
  pages <- lift (pdf_pages w (doc_path self)) ;;
  let content := join [LF] (filter truthy pages) in
  log (py "Extracting key information...") (py "think") ;;
  text <- model_generate w [knowledge_prompt; content] ;;
  knowledge <- _parse_yaml_safely (_clean_response text) ;;
  (if negb (isinstance_dict knowledge) || negb (value_truthy knowledge)
   then raise (mk_exn ValueError (py "Invalid knowledge structure"))
   else ret tt) ;;
  log (py "Documentation processed successfully") (py "success") ;;
  ret (set_knowledge self knowledge).

Definition _load_knowledge (self : agent) : M agent :=
  try_except
    (_load_knowledge_try self)
    (except_Exception (fun e =>
       log (py "Error loading documentation: " ++ exn_msg e) (py "error") ;;
       ret (set_knowledge self default_knowledge))).

(** [ICLAgent(doc_path, api_key, output_dir)].  Configuring the client
    library and building the model handle touch nothing the model
    observes. *)
Definition __init__ (doc_path api_key : str) (output_dir : str) : M agent :=
  let self := mk_agent doc_path output_dir (VDict []) in
  lift (makedirs w output_dir) ;;
  log (py "Initializing and loading documentation...") (py "info") ;;
  _load_knowledge self.

Definition request_prompt (self : agent) (user_input : str) : str :=
  py "
            Generate a YAML configuration based on this request: " ++ user_input ++ py "

            Knowledge base:
            " ++ yaml_dump w prompt_opts (knowledge self) ++ py "

            Requirements:
            - Output **only valid YAML**, without markdown or extra text.
            - Ensure all necessary components are included.
            - Follow security and best practices.
            - Use proper indentation.

            Response must be **pure YAML** with no extra formatting.
            ".

Definition process_request_try (self : agent) (user_input : str) : M (value * str) :=
  log (py "Processing request: " ++ user_input) (py "think") ;;
  text <- model_generate w [request_prompt self user_input] ;;
  config <- _parse_yaml_safely (_clean_response text) ;;
  filepath <- _save_yaml self config (Some (py "icl_config")) ;;
  ret (config, filepath).

Definition process_request (self : agent) (user_input : str) : M (value * str) :=
  try_except
    (process_request_try self user_input)
    (except_Exception (fun e =>
       log (py "Error processing request: " ++ exn_msg e) (py "error") ;;
       raise e)).

Definition update_prompt (self : agent) (current_config : value) (update_request : str) : str :=
  py "
            Update this configuration:
            " ++ yaml_dump w prompt_opts current_config ++ py "

            With these changes: " ++ update_request ++ py "

            Knowledge base:
            " ++ yaml_dump w prompt_opts (knowledge self) ++ py "

            Requirements:
            - Maintain existing valid settings.
            - Update only the necessary parts.
            - Ensure structure and format remain valid.
            - Ensure correct indentation.

            Response must be **pure YAML** with no extra text.
            ".

Definition update_configuration_try (self : agent) (current_config : value)
    (update_request : str) : M (value * str) :=
  log (py "Processing update: " ++ update_request) (py "think") ;;
  text <- model_generate w [update_prompt self current_config update_request] ;;
  updated_config <- _parse_yaml_safely (_clean_response text) ;;
  filepath <- _save_yaml self updated_config (Some (py "icl_config_updated")) ;;
  ret (updated_config, filepath).

Definition update_configuration (self : agent) (current_config : value)
    (update_request : str) : M (value * str) :=
  try_except
    (update_configuration_try self current_config update_request)
    (except_Exception (fun e =>
       log (py "Error updating configuration: " ++ exn_msg e) (py "error") ;;
       raise e)).

End WithWorld.

End ICLAgent.

(* ================================================================== *)
(** ** app.py: class StreamlitICLAgent *)
(* ================================================================== *)

Module StreamlitICLAgent.

Record agent := mk_agent { knowledge : value }.

Definition __init__ : M agent := ret (mk_agent default_knowledge).

Definition _clean_response (text : str) : str :=
  if negb (truthy text) then []
  else
    let text := Re.sub opening_fence_re [] text in
    let text := replace fence [] text in
    let text := Re.sub comment_re [] text in
    let lines := splitlines (strip text) in
    let cleaned_lines :=
      map (replace [TAB] [SP; SP])
          (filter (fun line => truthy (strip line)) lines) in
    join [LF] cleaned_lines.

Section WithWorld.
Variable w : World.

Definition _parse_yaml_safely (content : str) : M value :=
  try_except
    (docs <- lift (yaml_safe_load_all w content) ;;
     match docs with
     | [] => raise (mk_exn ValueError (py "Empty YAML content"))
     | [d] => ret d
     | _ :: _ :: _ => ret (VDict [(vstr "documents", VList docs)])
     end)
    (except_YAMLError (fun e =>
       st_error (py "YAML parsing failed: " ++ exn_msg e) ;;
       t <- now w ;;
       ret (VDict [ (vstr "error", vstr "Failed to parse YAML");
                    (vstr "timestamp", VStr (datetime_str w t)) ]))).

Definition prompt_opts : dump_opts :=
  mk_dump_opts (Some false) None None.

Definition request_prompt (self : agent) (user_input : str) : str :=
  py "
            Generate a YAML configuration based on this request: " ++ user_input ++ py "

            Knowledge base:
            " ++ yaml_dump w prompt_opts (knowledge self) ++ py "

            Requirements:
            - Output **only valid YAML**, without markdown or extra text
            - Ensure all necessary components are included
            - Follow security and best practices
            - Use proper indentation

            Response must be **pure YAML** with no extra formatting.
            ".

Definition process_request_try (self : agent) (user_input : str) : M value :=
  text <- model_generate w [request_prompt self user_input] ;;
  _parse_yaml_safely (_clean_response text).

Definition process_request (self : agent) (user_input : str) : M value :=
  try_except
    (process_request_try self user_input)
    (except_Exception (fun e =>
       st_error (py "Error processing request: " ++ exn_msg e) ;;
       ret (VDict [(vstr "error", VStr (exn_msg e))]))).

End WithWorld.

End StreamlitICLAgent.

(* ================================================================== *)
(** ** Auxiliary definitions for the proofs *)
(* ================================================================== *)

(** [fence_free_from k s]: no three backticks in a row in [s], when [k]
    backticks come just before it. *)
Fixpoint fence_free_from (k : nat) (s : str) : bool :=
  match s with
  | [] => true
  | c :: s' =>
      if (c =? BT)%N then (k <? 2) && fence_free_from (S k) s'
      else fence_free_from 0 s'
  end.

(** The number of backticks [s] starts with. *)
Fixpoint lead (s : str) : nat :=
  match s with
  | c :: s' => if (c =? BT)%N then S (lead s') else 0
  | [] => 0
  end.

(** The number of characters before the next "\n" (or the end). *)
Fixpoint line_rest (s : str) : nat :=
  match s with
  | c :: s' => if (c =? LF)%N then 0 else S (line_rest s')
  | [] => 0
  end.

(** A line that [_clean_response] keeps. *)
Definition nonblank (line : str) : bool := truthy (strip line).

(** The text conditions under which sanitising only strips the ends. *)
Record plain_text (t : str) : Prop := mk_plain_text {
  plain_no_fence : ~ occurs fence t;
  plain_no_hash : ~ In HASH t;
  plain_no_tab : ~ In TAB t;
  plain_only_lf : forall c, In c t -> islinebreak c = true -> c = LF;
  plain_no_blank : Forall (fun line => nonblank line = true) (splitlines (strip t))
}.

(** The exception of the parser on a text without document. *)
Definition empty_content : exn := mk_exn ValueError (py "Empty YAML content").

(** Every character of every string (key or value) of a document. *)
Fixpoint value_chars (v : value) : list char :=
  match v with
  | VStr s => s
  | VList l => flat_map value_chars l
  | VDict d => flat_map (fun kv => value_chars (fst kv) ++ value_chars (snd kv)) d
  | _ => []
  end.

(** The error document of the parser, with its timestamp. *)
Definition error_document (timestamp : str) : value :=
  VDict [ (vstr "error", vstr "Failed to parse YAML");
          (vstr "timestamp", VStr timestamp) ].

Definition documents_wrapper (docs : list value) : value :=
  VDict [(vstr "documents", VList docs)].

Definition has_four_sections (v : value) : bool :=
  has_key (py "schema") v && has_key (py "rules") v
  && has_key (py "practices") v && has_key (py "patterns") v.

(** State after [print]ing one more line, or one more [st.error]. *)
Definition printed (line : str) (st : state) : state :=
  mk_state (stdout st ++ [line]) (st_errors st) (calls st) (ticks st) (files st).
Definition reported (message : str) (st : state) : state :=
  mk_state (stdout st) (st_errors st ++ [message]) (calls st) (ticks st) (files st).
Definition ticked (st : state) : state :=
  mk_state (stdout st) (st_errors st) (calls st) (S (ticks st)) (files st).
Definition called (st : state) : state :=
  mk_state (stdout st) (st_errors st) (S (calls st)) (ticks st) (files st).

(** The line [ICLAgent.log] prints for an error message. *)
Definition error_line (message : str) : str :=
  [0x201a; 0xf9; 0xe5]%N ++ py " " ++ message.

(* ------------------------------------------------------------------ *)
(** *** A concrete world for the examples

    The loader and the dumper below tabulate PyYAML on the few texts
    and documents the examples use; anything else is outside the table.
    The facts tabulated: the empty text holds no document; ": : :" is
    rejected by the parser (a value indicator with no key), with a
    [ParserError], which is a [YAMLError] (its message is abridged
    here); a block mapping of plain scalars loads as the mapping it
    shows, "---" separating documents; a string with a line break is
    written single-quoted, the break as an empty line and the next line
    indented by two; a single-quoted scalar read back folds a lone line
    break into a space.  The clock has stopped; the remote model, the
    PDF reader and the file system answer as the arguments say. *)

Module Fixture.

Fixpoint value_eqb (a b : value) {struct a} : bool :=
  match a, b with
  | VNone, VNone => true
  | VBool x, VBool y => Bool.eqb x y
  | VInt x, VInt y => (x =? y)%Z
  | VStr x, VStr y => str_eqb x y
  | VList x, VList y =>
      (fix go (x y : list value) {struct x} : bool :=
         match x, y with
         | [], [] => true
         | a :: x', b :: y' => value_eqb a b && go x' y'
         | _, _ => false
         end) x y
  | VDict x, VDict y =>
      (fix go (x y : list (value * value)) {struct x} : bool :=
         match x, y with
         | [], [] => true
         | (k, v) :: x', (k', v') :: y' =>
             value_eqb k k' && value_eqb v v' && go x' y'
         | _, _ => false
         end) x y
  | _, _ => false
  end.

(** component: webapp / replicas: auto / memory: 2GB, as a model
    response. *)
Definition webapp_response : str :=
  py "component: webapp" ++ [LF] ++ py "replicas: auto" ++ [LF]
  ++ py "memory: 2GB" ++ [LF].
Definition webapp_text : str :=
  py "component: webapp" ++ [LF] ++ py "replicas: auto" ++ [LF]
  ++ py "memory: 2GB".
Definition webapp_doc : value :=
  VDict [ (vstr "component", vstr "webapp"); (vstr "replicas", vstr "auto");
          (vstr "memory", vstr "2GB") ].

(** A document whose keys are already sorted, and its serialisation. *)
Definition cache_doc : value :=
  VDict [ (vstr "component", vstr "cache"); (vstr "memory", vstr "2GB") ].
Definition cache_dump : str :=
  py "component: cache" ++ [LF] ++ py "memory: 2GB" ++ [LF].
Definition cache_text : str :=
  py "component: cache" ++ [LF] ++ py "memory: 2GB".

(** A string value with a line break: PyYAML writes it single-quoted,
    the break as an empty line; read back without the empty line, the
    break folds into a space. *)
Definition multiline_doc : value :=
  VDict [ (vstr "a", VStr (py "x" ++ [LF] ++ py "y")) ].
Definition multiline_dump : str :=
  py "a: 'x" ++ [LF; LF] ++ py "  y'" ++ [LF].
Definition folded_text : str :=
  py "a: 'x" ++ [LF] ++ py "  y'".
Definition folded_doc : value :=
  VDict [ (vstr "a", vstr "x y") ].

Definition two_docs_text : str :=
  py "a: 1" ++ [LF] ++ py "---" ++ [LF] ++ py "b: 2".
Definition two_docs : list value :=
  [ VDict [(vstr "a", VInt 1)]; VDict [(vstr "b", VInt 2)] ].

Definition malformed_text : str := py ": : :".
Definition parser_error : exn :=
  mk_exn YAMLError (py "while parsing a block mapping: expected <block end>, but found ':'").

Definition transport_error : exn :=
  mk_exn (OtherException (py "ServiceUnavailable")) (py "503 The model is overloaded").
Definition disk_error : exn :=
  mk_exn (OtherException (py "PermissionError")) (py "[Errno 13] Permission denied").

Definition load (s : str) : outcome (list value) :=
  if str_eqb s [] then Return []
  else if str_eqb s malformed_text then Raise parser_error
  else if str_eqb s webapp_text then Return [webapp_doc]
  else if str_eqb s cache_dump then Return [cache_doc]
  else if str_eqb s cache_text then Return [cache_doc]
  else if str_eqb s multiline_dump then Return [multiline_doc]
  else if str_eqb s folded_text then Return [folded_doc]
  else if str_eqb s two_docs_text then Return two_docs
  else Raise (mk_exn (OtherException (py "LookupError")) (py "text outside the table")).

Definition dump (_ : dump_opts) (v : value) : str :=
  if value_eqb v cache_doc then cache_dump
  else if value_eqb v multiline_doc then multiline_dump
  else [].

Definition stopped_clock : str := py "2025-01-01 12:00:00.000000".
Definition compact_clock : str := py "20250101_120000".

Definition world (response : outcome str) (doc_exists : bool)
    (write_result : outcome unit) : World :=
  mk_World (fun _ : nat => tt)
           (fun _ => stopped_clock)
           (fun _ _ => compact_clock)
           load dump
           (fun _ _ => response)
           (fun _ => doc_exists)
           (fun _ => Return [py "ICL reference, page 1"])
           (fun _ => Return tt)
           (fun _ _ => write_result).

Definition st0 : state := mk_state [] [] 0 0 [].

Definition icl_self : ICLAgent.agent :=
  ICLAgent.mk_agent (py "icl.pdf") (py "configs") default_knowledge.

End Fixture.

(* ================================================================== *)
(** ** icl_agent.py: the scripted driver *)
(* ================================================================== *)

Module Driver.

Section WithWorld.
Variable w : World.

Definition memo_icon : str := [0xf8ff; 0xfc; 0xec; 0xf9]%N.
Definition cross_icon : str := [0x201a; 0xf9; 0xe5]%N.

Definition first_request : str :=
  py "Deploy a Node.js app with auto-scaling and 2GB RAM in a secured region".
Definition second_request : str :=
  py "Increase CPU to 4 vCPUs and add GPU support".

(** The [try] block of [icl_agent()].  [api_key] is what the environment
    holds under GEMINI_API_KEY; construction passes it to the client
    library only.  [output_dir] takes its default. *)
Definition icl_agent_try (api_key : str) : M unit :=
  agent <- ICLAgent.__init__ w (py "icl.pdf") api_key (py "configs") ;;
  print ([LF] ++ memo_icon ++ py " Generating initial configuration...") ;;
  r <- ICLAgent.process_request w agent first_request ;;
  print ([LF] ++ py "Configuration saved to: " ++ snd r) ;;
  print ([LF] ++ memo_icon ++ py " Updating configuration...") ;;
  r' <- ICLAgent.update_configuration w agent (fst r) second_request ;;
  print ([LF] ++ py "Updated configuration saved to: " ++ snd r') ;;
  ret tt.

Definition icl_agent (api_key : str) : M unit :=
  try_except
    (icl_agent_try api_key)
    (except_Exception (fun e =>
       print ([LF] ++ cross_icon ++ py " Fatal Error: " ++ exn_msg e) ;;
       raise e)).

End WithWorld.

End Driver.

(* ================================================================== *)
(** ** app.py: the download link and the page *)
(* ================================================================== *)

Module App.

Definition DQ : char := 34%N.      (* the double quote *)
Definition EQ : char := 61%N.      (* '=' *)

(** [str.encode()]: UTF-8, errors='strict'.  A surrogate has no
    encoding (UnicodeEncodeError); a Python string holds no code point
    above U+10FFFF. *)
Definition utf8_char (c : char) : option (list N) :=
  (if c <? 0x80 then Some [c]
   else if c <? 0x800 then Some [0xC0 + c / 64; 0x80 + c mod 64]
   else if c <? 0x10000 then
     if (0xD800 <=? c) && (c <=? 0xDFFF) then None
     else Some [0xE0 + c / 4096; 0x80 + (c / 64) mod 64; 0x80 + c mod 64]
   else if c <? 0x110000 then
     Some [0xF0 + c / 262144; 0x80 + (c / 4096) mod 64;
           0x80 + (c / 64) mod 64; 0x80 + c mod 64]
   else None)%N.

(** The message of the error is abridged: Python names the character
    and its position. *)
Definition encode_error : exn :=
  mk_exn (OtherException (py "UnicodeEncodeError"))
         (py "'utf-8' codec can't encode character: surrogates not allowed").

Fixpoint encode (s : str) : outcome (list N) :=
  match s with
  | [] => Return []
  | c :: s' =>
      match utf8_char c, encode s' with
      | Some bs, Return rest => Return (bs ++ rest)
      | None, _ => Raise encode_error
      | _, Raise e => Raise e
      end
  end.

Definition b64_alphabet : str :=
  py "ABCDEFGHIJKLMNOPQRSTUVWXYZabcdefghijklmnopqrstuvwxyz0123456789+/".

Definition b64_digit (i : N) : char := nth (N.to_nat i) b64_alphabet EQ.

(** [base64.b64encode(bs).decode()]: three bytes give four digits; one
    or two bytes left over are padded with '='. *)
Fixpoint b64encode (bs : list N) : str :=
  match bs with
  | [] => []
  | [a] =>
      [b64_digit (a / 4); b64_digit ((a mod 4) * 16); EQ; EQ]%N
  | [a; b] =>
      [b64_digit (a / 4); b64_digit ((a mod 4) * 16 + b / 16);
       b64_digit ((b mod 16) * 4); EQ]%N
  | a :: b :: c :: rest =>
      (b64_digit (a / 4) :: b64_digit ((a mod 4) * 16 + b / 16)
       :: b64_digit ((b mod 16) * 4 + c / 64) :: b64_digit (c mod 64)
       :: b64encode rest)%N
  end.

Definition link_opts : dump_opts := mk_dump_opts (Some false) None None.

Definition link_head : str :=
  py "<a href=" ++ [DQ] ++ py "data:file/yaml;base64,".
Definition link_tail (filename : str) : str :=
  [DQ] ++ py " download=" ++ [DQ] ++ filename ++ [DQ] ++ py " class=" ++ [DQ]
  ++ py "download-button" ++ [DQ] ++ py ">" ++ [0x1f4e5]%N
  ++ py " Download YAML</a>".

Section WithWorld.
Variable w : World.

Definition get_yaml_download_link (yaml_data : value) (filename : str) : M str :=
  try_except
    (let yaml_str := yaml_dump w link_opts yaml_data in
     bytes <- lift (encode yaml_str) ;;
     let b64 := b64encode bytes in
     ret (link_head ++ b64 ++ link_tail filename))
    (except_Exception (fun e =>
       st_error (py "Error generating download link: " ++ exn_msg e) ;;
       ret [])).

(** What the page shows, and where. *)
Inductive container := Page | Sidebar | Column (i : nat).

Inductive element :=
| Title (body : str)
| Header (body : str)
| Markdown (body : str) (unsafe_allow_html : bool)
| TextArea (label : str) (height : nat)
| Columns (spec : list nat)
| Button (label : str)
| Spinner (text : str)
| Code (body : str) (language : str).

(** [st.session_state]: a key is absent until the first run sets it. *)
Record session := mk_session {
  agent : option StreamlitICLAgent.agent;
  chat_history : option (list (str * str))
}.

Definition tips : str := py "
        - Be specific about your configuration needs
        - Include all necessary parameters
        - Mention any specific requirements
        - Use clear, concise language
        ".

Definition examples : str := py "
        <div class=" ++ [DQ] ++ py "decoration" ++ [DQ] ++ py ">
            " ++ [0x1f527]%N ++ py " Examples:
            <ul>
                <li>Deploy a Node.js app with auto-scaling</li>
                <li>Configure a Redis cache with 2GB memory</li>
                <li>Set up a PostgreSQL database with replication</li>
            </ul>
        </div>
        ".

(** Everything the page shows before it looks at the button. *)
Definition page_top : list (container * element) :=
  [ (Page, Title ([0x1f916]%N ++ py " YAML Configuration Generator"));
    (Sidebar, Header ([0x1f4a1]%N ++ py " Tips"));
    (Sidebar, Markdown tips false);
    (Sidebar, Markdown examples true);
    (Page, TextArea ([0x1f4ad]%N
                     ++ py " What configuration would you like to generate?") 100);
    (Page, Columns [1; 1; 1]);
    (Column 2, Button ([0x1f680]%N ++ py " Generate Configuration")) ].

(** One turn of the loop over the chat history. *)
Definition show_message (m : str * str) : list (container * element) :=
  let (msg_type, message) := m in
  if str_eqb msg_type (py "user") then
    [ (Page, Markdown (py "<div class=" ++ [DQ] ++ py "chat-message user-message"
                       ++ [DQ] ++ py ">" ++ [0x1f464]%N ++ py " You: "
                       ++ message ++ py "</div>") true) ]
  else if str_eqb msg_type (py "bot") then
    [ (Page, Markdown (py "<div class=" ++ [DQ] ++ py "chat-message bot-message"
                       ++ [DQ] ++ py ">" ++ [0x1f916]%N
                       ++ py " Generated YAML Configuration:</div>") true);
      (Page, Code message (py "yaml")) ]
  else if str_eqb msg_type (py "download") then
    [ (Page, Markdown message true) ]
  else [].

(** One run of [main()]: [user_input] is what the text area holds and
    [pressed] whether the button was pressed; the result is the session
    state the run leaves and what it put on the page.  The session
    state is written between calls that never raise (see the theorems),
    so it is returned rather than kept in the store. *)
Definition main (s : session) (user_input : str) (pressed : bool)
  : M (session * list (container * element)) :=
  a <- match agent s with
       | Some a => ret a
       | None => StreamlitICLAgent.__init__
       end ;;
  let history := match chat_history s with Some h => h | None => [] end in
  if pressed && truthy user_input then
    let history := history ++ [(py "user", user_input)] in
    config <- StreamlitICLAgent.process_request w a user_input ;;
    let yaml_str := yaml_dump w link_opts config in
    let history := history ++ [(py "bot", yaml_str)] in
    download_link <- get_yaml_download_link config (py "config.yaml") ;;
    let history := history ++ [(py "download", download_link)] in
    ret (mk_session (Some a) (Some history),
         page_top
         ++ [(Column 2, Spinner ([0x1f504]%N ++ py " Generating configuration..."))]
         ++ flat_map show_message history)
  else
    ret (mk_session (Some a) (Some history),
         page_top ++ flat_map show_message history).

End WithWorld.

End App.

(* ------------------------------------------------------------------ *)
(** *** More auxiliary definitions *)

(** The lines [_clean_response] joins, for a text that is not empty. *)
Definition sanitised_lines (text : str) : list str :=
  map (replace [TAB] [SP; SP])
      (filter nonblank
         (splitlines
            (strip (Re.sub comment_re []
                      (replace fence [] (Re.sub opening_fence_re [] text)))))).

(** What [replace('\t', '  ')] writes for one character. *)
Definition expand_tab (c : char) : str :=
  if (TAB =? c)%N then [SP; SP] else [c].

(** The exception of [_load_knowledge] on a result it rejects. *)
Definition invalid_knowledge : exn :=
  mk_exn ValueError (py "Invalid knowledge structure").

(** The line [ICLAgent.log] prints. *)
Definition log_line (message type : str) : str :=
  match dict_get type ICLAgent.indicators with
  | Some p => p
  | None => ICLAgent.indicator_info
  end ++ py " " ++ message.

(** The file [_save_yaml] writes, for the clock reading [t]. *)
Definition save_stem (name : option str) : str :=
  match name with
  | Some ((_ :: _) as n) => n
  | _ => py "config"
  end.
Definition save_path (w : World) (self : ICLAgent.agent) (name : option str)
    (t : datetime w) : str :=
  path_join (ICLAgent.output_dir self)
            (save_stem name ++ py "_" ++ strftime w t (py "%Y%m%d_%H%M%S")
             ++ py ".yaml").

(** State after one more file. *)
Definition saved (path content : str) (st : state) : state :=
  mk_state (stdout st) (st_errors st) (calls st) (ticks st)
           ((path, content) :: files st).

(** [c] moves the state along [R] only, whatever it returns or
    raises. *)
Definition respects (R : state -> state -> Prop) (A : Type) (c : M A) : Prop :=
  forall st r st', c st = (r, st') -> R st st'.

(** No remote call and no file. *)
Definition quiet (a b : state) : Prop :=
  calls b = calls a /\ files b = files a.

(** The agent of the session after a run: the one it had, or a new one
    with the default knowledge base. *)
Definition session_agent (s : App.session) : StreamlitICLAgent.agent :=
  match App.agent s with
  | Some a => a
  | None => StreamlitICLAgent.mk_agent default_knowledge
  end.

Definition session_history (s : App.session) : list (str * str) :=
  match App.chat_history s with Some h => h | None => [] end.

(** A character that has a UTF-8 encoding. *)
Definition encodable (c : char) : bool :=
  ((c <? 0xD800) || ((0xDFFF <? c) && (c <? 0x110000)))%N.

(** A line as [splitlines] gives them: no line boundary inside. *)
Definition one_line (l : str) : Prop := Forall (fun c => islinebreak c = false) l.

(* ================================================================== *)
(** ** Strings: occurrences, stripping, lines *)
(* ================================================================== *)

Section StringFacts.

Lemma startswith_app (p b : str) : startswith p (p ++ b) = true.
Proof.
  induction p as [|a p IH]; simpl; [reflexivity|].
  now rewrite N.eqb_refl, IH.
Qed.

Lemma startswith_split (p s : str) :
  startswith p s = true -> exists b, s = p ++ b.
Proof.
  revert s; induction p as [|a p IH]; intros s H.
  - now exists s.
  - destruct s as [|c s]; simpl in H; [discriminate|].
    apply andb_true_iff in H as [Hc Hs].
    apply N.eqb_eq in Hc; subst c.
    destruct (IH _ Hs) as [b ->]. now exists b.
Qed.

Lemma startswith_occurs (p s : str) : startswith p s = true -> occurs p s.
Proof.
  intros H. destruct (startswith_split _ _ H) as [b ->]. now exists [], b.
Qed.

Lemma occurs_cons (p : str) (c : char) (s : str) :
  occurs p s -> occurs p (c :: s).
Proof.
  intros (a & b & ->). now exists (c :: a), b.
Qed.

Lemma occurs_within (p x y z : str) : occurs p y -> occurs p (x ++ y ++ z).
Proof.
  intros (a & b & ->). exists (x ++ a), (b ++ z).
  now rewrite <- !app_assoc.
Qed.

Lemma dropwhile_suffix (f : char -> bool) (s : str) :
  exists a, s = a ++ dropwhile f s /\ Forall (fun c => f c = true) a.
Proof.
  induction s as [|c s (a & Ha & Hf)]; simpl.
  - now exists [].
  - destruct (f c) eqn:E.
    + exists (c :: a). split; [simpl; now f_equal | now constructor].
    + now exists [].
Qed.

Lemma dropwhile_head (f : char -> bool) (s : str) (c : char) (r : str) :
  dropwhile f s = c :: r -> f c = false.
Proof.
  induction s as [|d s IH]; simpl; [discriminate|].
  destruct (f d) eqn:E; [exact IH|].
  intros [= -> _]. exact E.
Qed.

Lemma rstrip_prefix (s : str) : exists b, s = rstrip s ++ b.
Proof.
  unfold rstrip.
  destruct (dropwhile_suffix isspace (rev s)) as (a & Ha & _).
  exists (rev a).
  rewrite <- rev_app_distr, <- Ha. now rewrite rev_involutive.
Qed.

Lemma rstrip_last (s a : str) (c : char) :
  rstrip s = a ++ [c] -> isspace c = false.
Proof.
  unfold rstrip. intros H.
  destruct (dropwhile isspace (rev s)) as [|d r] eqn:E.
  - destruct a; discriminate.
  - simpl in H. apply app_inj_tail in H as [_ ->].
    eapply dropwhile_head; eauto.
Qed.

(** [strip] cuts a prefix and a suffix off. *)
Lemma strip_middle (s : str) : exists a b, s = a ++ strip s ++ b.
Proof.
  unfold strip, lstrip.
  destruct (dropwhile_suffix isspace s) as (a & Ha & _).
  destruct (rstrip_prefix (dropwhile isspace s)) as (b & Hb).
  exists a, b. now rewrite <- Hb.
Qed.

Lemma strip_In (s : str) (c : char) : In c (strip s) -> In c s.
Proof.
  destruct (strip_middle s) as (a & b & H). intros Hc.
  rewrite H. apply in_or_app; right. apply in_or_app; now left.
Qed.

Lemma strip_not_ending_in_LF (s a : str) : strip s <> a ++ [LF].
Proof.
  intros H. apply rstrip_last in H. discriminate.
Qed.

Lemma splitlines_from_nonempty (s cur : str) : splitlines_from cur s <> [].
Proof.
  revert cur; induction s as [|c s IH]; intros cur; simpl; [discriminate|].
  destruct (islinebreak c); [discriminate | apply IH].
Qed.

Lemma join_cons (sep p : str) (rest : list str) :
  rest <> [] -> join sep (p :: rest) = p ++ sep ++ join sep rest.
Proof. destruct rest; [congruence | reflexivity]. Qed.

Lemma in_join (sep l : str) (ls : list str) (c : char) :
  In l ls -> In c l -> In c (join sep ls).
Proof.
  induction ls as [|p rest IH]; intros Hl Hc; [contradiction|].
  destruct rest as [|q rest].
  - destruct Hl as [->|[]]. exact Hc.
  - change (In c (p ++ sep ++ join sep (q :: rest))).
    destruct Hl as [->|Hl].
    + apply in_or_app; now left.
    + apply in_or_app; right. apply in_or_app; right. now apply IH.
Qed.

(** With "\n" the only line boundary and no "\n" at the end, joining
    the lines gives the text back. *)
Lemma join_splitlines_from (s cur : str) :
  (forall c, In c s -> islinebreak c = true -> c = LF) ->
  (forall a, s <> a ++ [LF]) ->
  join [LF] (splitlines_from cur s) = cur ++ s.
Proof.
  revert cur; induction s as [|c s IH]; intros cur Hlf Hend; simpl.
  - now rewrite app_nil_r.
  - destruct (islinebreak c) eqn:E.
    + assert (c = LF) by (apply Hlf; [now left | exact E]). subst c.
      destruct s as [|d s'].
      * exfalso. now apply (Hend []).
      * change ((LF =? CR)%N) with false. cbn [andb].
        rewrite join_cons by apply splitlines_from_nonempty.
        rewrite IH.
        -- reflexivity.
        -- intros x Hx. apply Hlf. now right.
        -- intros a Ha. apply (Hend (LF :: a)). simpl. now rewrite Ha.
    + rewrite IH.
      * now rewrite <- app_assoc.
      * intros x Hx. apply Hlf. now right.
      * intros a Ha. apply (Hend (c :: a)). simpl. now rewrite Ha.
Qed.

Lemma join_splitlines (s : str) :
  (forall c, In c s -> islinebreak c = true -> c = LF) ->
  (forall a, s <> a ++ [LF]) ->
  join [LF] (splitlines s) = s.
Proof.
  intros Hlf Hend. destruct s as [|c s]; [reflexivity|].
  unfold splitlines. now rewrite join_splitlines_from.
Qed.

Lemma filter_all (A : Type) (f : A -> bool) (l : list A) :
  Forall (fun x => f x = true) l -> filter f l = l.
Proof.
  induction 1 as [|x l Hx _ IH]; simpl; [reflexivity|].
  now rewrite Hx, IH.
Qed.

Lemma map_id_on (A : Type) (f : A -> A) (l : list A) :
  (forall x, In x l -> f x = x) -> map f l = l.
Proof.
  induction l as [|x l IH]; intros H; simpl; [reflexivity|].
  rewrite H by now left. f_equal. apply IH. intros y Hy. apply H. now right.
Qed.

End StringFacts.

(* ================================================================== *)
(** ** The two patterns *)
(* ================================================================== *)

Section PatternFacts.

(** A match of the opening-fence pattern starts with three backticks. *)
Lemma rmatch_opening_fence (s : str) (n : nat) :
  Re.rmatch opening_fence_re s = Some n -> startswith fence s = true.
Proof.
  change opening_fence_re with
    [Re.One (Re.Lit BT); Re.One (Re.Lit BT); Re.One (Re.Lit BT);
     Re.Star (Re.Cls (py "yamlYAML")); Re.One (Re.Lit LF)].
  destruct s as [|c1 [|c2 [|c3 r]]]; cbn [Re.rmatch Re.atom_ok fence startswith].
  - discriminate.
  - destruct (BT =? c1)%N; discriminate.
  - destruct (BT =? c1)%N; [|discriminate].
    destruct (BT =? c2)%N; discriminate.
  - destruct (BT =? c1)%N; [|discriminate].
    destruct (BT =? c2)%N; [|discriminate].
    destruct (BT =? c3)%N; [reflexivity | discriminate].
Qed.

(** [.*$] takes the rest of the line. *)
Lemma rmatch_rest_of_line (s : str) :
  Re.rmatch [Re.Star Re.Dot; Re.Eol] s = Some (line_rest s).
Proof.
  induction s as [|c s IH].
  - reflexivity.
  - cbn [Re.rmatch Re.atom_ok line_rest] in *.
    destruct (c =? LF)%N eqn:E; cbn [negb].
    + reflexivity.
    + now rewrite IH.
Qed.

(** The comment pattern matches at a '#', up to the end of its line. *)
Lemma rmatch_comment (c : char) (s : str) :
  Re.rmatch comment_re (c :: s) =
  if (HASH =? c)%N then Some (S (line_rest s)) else None.
Proof.
  unfold comment_re.
  change (Re.rmatch (Re.One (Re.Lit HASH) :: [Re.Star Re.Dot; Re.Eol]) (c :: s))
    with (if Re.atom_ok (Re.Lit HASH) c
          then option_map S (Re.rmatch [Re.Star Re.Dot; Re.Eol] s) else None).
  rewrite rmatch_rest_of_line. reflexivity.
Qed.

(** Neither pattern has an empty match, as [Re.sub] supposes. *)
Lemma rmatch_opening_fence_nonempty (s : str) :
  Re.rmatch opening_fence_re s <> Some 0.
Proof.
  change opening_fence_re with
    (Re.One (Re.Lit BT) ::
     [Re.One (Re.Lit BT); Re.One (Re.Lit BT);
      Re.Star (Re.Cls (py "yamlYAML")); Re.One (Re.Lit LF)]).
  destruct s as [|c s]; [discriminate|].
  remember [Re.One (Re.Lit BT); Re.One (Re.Lit BT);
            Re.Star (Re.Cls (py "yamlYAML")); Re.One (Re.Lit LF)] as r'.
  cbn [Re.rmatch].
  destruct (Re.atom_ok (Re.Lit BT) c); [|discriminate].
  destruct (Re.rmatch r' s); discriminate.
Qed.

Lemma rmatch_comment_nonempty (s : str) : Re.rmatch comment_re s <> Some 0.
Proof.
  destruct s as [|c s]; [discriminate|].
  rewrite rmatch_comment. destruct (HASH =? c)%N; discriminate.
Qed.

(** Passing over [k] characters is going on after them. *)
Lemma sub_go_skip (r : Re.regex) (repl : str) (k : nat) (s : str) :
  Re.sub_go r repl k s = Re.sub_go r repl 0 (skipn k s).
Proof.
  revert k; induction s as [|c s IH]; intros [|k]; try reflexivity.
  cbn [Re.sub_go skipn]. apply IH.
Qed.

Lemma replace_go_skip (old new : str) (k : nat) (s : str) :
  replace_go old new k s = replace_go old new 0 (skipn k s).
Proof.
  revert k; induction s as [|c s IH]; intros [|k]; try reflexivity.
  cbn [replace_go skipn]. apply IH.
Qed.

(** Where the pattern matches nowhere, [re.sub] changes nothing. *)
Lemma sub_id (r : Re.regex) (repl : str) (P : str -> Prop) :
  (forall c s, P (c :: s) -> P s) ->
  (forall s n, P s -> Re.rmatch r s <> Some (S n)) ->
  forall s, P s -> Re.sub r repl s = s.
Proof.
  intros Htl Hno. unfold Re.sub.
  induction s as [|c s IH]; intros HP; [reflexivity|].
  cbn [Re.sub_go].
  destruct (Re.rmatch r (c :: s)) as [[|n]|] eqn:E.
  - f_equal. apply IH. eauto.
  - exfalso. eapply Hno; eauto.
  - f_equal. apply IH. eauto.
Qed.

Lemma replace_id (old new : str) (P : str -> Prop) :
  old <> [] ->
  (forall c s, P (c :: s) -> P s) ->
  (forall s, P s -> startswith old s = false) ->
  forall s, P s -> replace old new s = s.
Proof.
  intros Hold Htl Hno. unfold replace.
  destruct old as [|o old']; [congruence|].
  induction s as [|c s IH]; intros HP; [reflexivity|].
  cbn [replace_go]. rewrite (Hno _ HP). f_equal. apply IH. eauto.
Qed.

Lemma not_occurs_tail (p : str) (c : char) (s : str) :
  ~ occurs p (c :: s) -> ~ occurs p s.
Proof. intros H Ho. apply H. now apply occurs_cons. Qed.

Lemma not_In_tail (x c : char) (s : str) : ~ In x (c :: s) -> ~ In x s.
Proof. intros H Hi. apply H. now right. Qed.

Lemma sub_opening_fence_id (s : str) :
  ~ occurs fence s -> Re.sub opening_fence_re [] s = s.
Proof.
  apply sub_id with (P := fun s => ~ occurs fence s).
  - intros c s'. apply not_occurs_tail.
  - intros s' n H E. apply H. apply startswith_occurs.
    eapply rmatch_opening_fence; eauto.
Qed.

Lemma replace_fence_id (s : str) :
  ~ occurs fence s -> replace fence [] s = s.
Proof.
  apply replace_id with (P := fun s => ~ occurs fence s).
  - discriminate.
  - intros c s'. apply not_occurs_tail.
  - intros s' H. destruct (startswith fence s') eqn:E; [|reflexivity].
    exfalso. apply H. now apply startswith_occurs.
Qed.

Lemma sub_comment_id (s : str) :
  ~ In HASH s -> Re.sub comment_re [] s = s.
Proof.
  apply sub_id with (P := fun s => ~ In HASH s).
  - intros c s'. apply not_In_tail.
  - intros [|c s'] n H E; [discriminate|].
    rewrite rmatch_comment in E.
    destruct (HASH =? c)%N eqn:Ec; [|discriminate].
    apply N.eqb_eq in Ec. apply H. now left.
Qed.

Lemma replace_tab_id (s : str) :
  ~ In TAB s -> replace [TAB] [SP; SP] s = s.
Proof.
  apply replace_id with (P := fun s => ~ In TAB s).
  - discriminate.
  - intros c s'. apply not_In_tail.
  - intros [|c s'] H; [reflexivity|]. cbn [startswith].
    destruct (TAB =? c)%N eqn:Ec; [|reflexivity].
    apply N.eqb_eq in Ec. exfalso. apply H. now left.
Qed.

End PatternFacts.

(* ================================================================== *)
(** ** No fence survives sanitising *)
(* ================================================================== *)

Section FenceFree.

Lemma fence_free_weaken (s : str) (j k : nat) :
  j <= k -> fence_free_from k s = true -> fence_free_from j s = true.
Proof.
  revert j k; induction s as [|c s IH]; intros j k Hjk; simpl; [easy|].
  destruct (c =? BT)%N; [|easy].
  rewrite !andb_true_iff, !Nat.ltb_lt. intros [Hk Hs]. split; [lia|].
  apply (IH (S j) (S k)); [lia | exact Hs].
Qed.

Lemma fence_free_tail (k : nat) (c : char) (s : str) :
  fence_free_from k (c :: s) = true -> fence_free_from 0 s = true.
Proof.
  simpl. destruct (c =? BT)%N; [|easy].
  rewrite andb_true_iff. intros [_ H].
  apply (fence_free_weaken s (j := 0) (k := S k)); [lia | exact H].
Qed.

Lemma fence_free_app_l (a b : str) (k : nat) :
  fence_free_from k (a ++ b) = true -> fence_free_from k a = true.
Proof.
  revert k; induction a as [|c a IH]; intros k; simpl; [easy|].
  destruct (c =? BT)%N; [|apply IH].
  rewrite !andb_true_iff. intros [Hk H]. split; [exact Hk | now apply IH].
Qed.

Lemma fence_free_app_r (a b : str) (k : nat) :
  fence_free_from k (a ++ b) = true -> fence_free_from 0 b = true.
Proof.
  revert k; induction a as [|c a IH]; intros k H.
  - apply (fence_free_weaken b (j := 0) (k := k)); [lia | exact H].
  - apply fence_free_tail in H. now apply (IH 0).
Qed.

(** The checker is sound for the absence of the marker. *)
Lemma fence_free_sound (s : str) :
  fence_free_from 0 s = true -> ~ occurs fence s.
Proof.
  intros H (a & b & ->).
  apply fence_free_app_r in H. discriminate H.
Qed.

Lemma fence_free_strip (s : str) :
  fence_free_from 0 s = true -> fence_free_from 0 (strip s) = true.
Proof.
  destruct (strip_middle s) as (a & b & E). intros H.
  rewrite E in H. apply fence_free_app_r in H. now apply fence_free_app_l in H.
Qed.

(** Lines joined by a character that is no backtick. *)
Lemma fence_free_glue (a b : str) (k : nat) :
  fence_free_from k a = true -> fence_free_from 0 b = true ->
  fence_free_from k (a ++ LF :: b) = true.
Proof.
  revert k; induction a as [|c a IH]; intros k Ha Hb; simpl in *.
  - exact Hb.
  - destruct (c =? BT)%N; [|now apply IH].
    apply andb_true_iff in Ha as [Hk Ha]. rewrite Hk. now apply IH.
Qed.

Lemma fence_free_join (ls : list str) :
  Forall (fun l => fence_free_from 0 l = true) ls ->
  fence_free_from 0 (join [LF] ls) = true.
Proof.
  induction 1 as [|l ls Hl Hls IH]; [reflexivity|].
  destruct ls as [|l' ls']; [exact Hl|].
  change (fence_free_from 0 (l ++ LF :: join [LF] (l' :: ls')) = true).
  now apply fence_free_glue.
Qed.

Lemma fence_free_splitlines_from (s cur : str) :
  fence_free_from 0 (cur ++ s) = true ->
  Forall (fun l => fence_free_from 0 l = true) (splitlines_from cur s).
Proof.
  revert cur; induction s as [|c s IH]; intros cur H; simpl.
  - rewrite app_nil_r in H. now repeat constructor.
  - destruct (islinebreak c) eqn:E.
    + constructor; [now apply fence_free_app_l in H|].
      apply fence_free_app_r in H. apply fence_free_tail in H.
      destruct s as [|d s']; [constructor|].
      specialize (IH [] H).
      destruct ((c =? CR)%N && (d =? LF)%N) eqn:Ecr; [|exact IH].
      apply andb_true_iff in Ecr as [_ Ed]. apply N.eqb_eq in Ed. subst d.
      cbn [splitlines_from] in IH. change (islinebreak LF) with true in IH.
      cbn iota in IH. inversion IH as [|x xs _ Hxs]; subst.
      destruct s' as [|e s'']; [constructor|].
      change ((LF =? CR)%N) with false in Hxs. exact Hxs.
    + apply IH. now rewrite <- app_assoc.
Qed.

Lemma fence_free_splitlines (s : str) :
  fence_free_from 0 s = true ->
  Forall (fun l => fence_free_from 0 l = true) (splitlines s).
Proof.
  destruct s as [|c s]; [constructor|].
  intros H. now apply fence_free_splitlines_from.
Qed.

Lemma fence_free_replace_tab (s : str) (k : nat) :
  fence_free_from k s = true ->
  fence_free_from k (replace [TAB] [SP; SP] s) = true.
Proof.
  unfold replace. revert k; induction s as [|c s IH]; intros k H; [reflexivity|].
  cbn [replace_go startswith List.length Nat.sub].
  destruct (TAB =? c)%N eqn:E; cbn [andb].
  - apply N.eqb_eq in E. subst c.
    apply fence_free_tail in H. apply (IH 0) in H. exact H.
  - simpl in *. destruct (c =? BT)%N.
    + apply andb_true_iff in H as [Hk H]. rewrite Hk. now apply IH.
    + now apply IH.
Qed.

Lemma startswith_fence_lead (s : str) :
  startswith fence s = true -> 3 <= lead s.
Proof.
  destruct s as [|c1 [|c2 [|c3 r]]]; cbn [fence startswith lead];
    rewrite ?andb_false_r; try discriminate.
  rewrite !andb_true_iff, !N.eqb_eq. intros (<- & <- & <- & _).
  cbn. lia.
Qed.

Lemma lead_startswith_fence (s : str) :
  startswith fence (BT :: s) = false -> lead s < 2.
Proof.
  destruct s as [|c2 [|c3 r]]; cbn [fence startswith lead]; try (cbn; lia).
  - destruct (c2 =? BT)%N; lia.
  - rewrite N.eqb_refl. cbn [andb].
    rewrite (N.eqb_sym BT c2), (N.eqb_sym BT c3).
    destruct (c2 =? BT)%N; [|lia].
    destruct (c3 =? BT)%N; [discriminate | lia].
Qed.

(** [replace] of the marker by nothing: whatever is passed over, what is
    written has no marker; [k] backticks may come before when the text
    cannot complete them to a marker. *)
Lemma fence_free_replace_go (s : str) :
  (forall skip, fence_free_from 0 (replace_go fence [] skip s) = true) /\
  (forall k, k + lead s < 3 ->
             fence_free_from k (replace_go fence [] 0 s) = true).
Proof.
  induction s as [|c s [IHa IHb]]; [split; reflexivity|].
  assert (A0 : fence_free_from 0 (replace_go fence [] 0 (c :: s)) = true).
  { cbn [replace_go].
    destruct (startswith fence (c :: s)) eqn:E.
    - apply IHa.
    - cbn [fence_free_from].
      destruct (c =? BT)%N eqn:Ec; [|apply IHa].
      apply N.eqb_eq in Ec. subst c.
      apply lead_startswith_fence in E.
      cbn [Nat.ltb Nat.leb andb]. apply IHb. lia. }
  split.
  - intros [|j]; [exact A0 | apply IHa].
  - intros k Hk. cbn [replace_go].
    destruct (startswith fence (c :: s)) eqn:E.
    + apply startswith_fence_lead in E. lia.
    + cbn [lead] in Hk. cbn [fence_free_from].
      destruct (c =? BT)%N; [|apply IHa].
      apply andb_true_iff. split; [apply Nat.ltb_lt; lia | apply IHb; lia].
Qed.

Lemma fence_free_replace_fence (s : str) :
  fence_free_from 0 (replace fence [] s) = true.
Proof. apply (proj1 (fence_free_replace_go s)). Qed.

(** Removing comments cuts each line short, and so joins nothing. *)
Lemma fence_free_sub_comment_go (s : str) :
  (forall k, fence_free_from k s = true ->
             fence_free_from k (Re.sub_go comment_re [] 0 s) = true) /\
  (forall j k, fence_free_from j s = true ->
               fence_free_from k (Re.sub_go comment_re [] (line_rest s) s) = true).
Proof.
  induction s as [|c s [IHa IHb]]; [split; reflexivity|].
  assert (A : forall k, fence_free_from k (c :: s) = true ->
                        fence_free_from k (Re.sub_go comment_re [] 0 (c :: s)) = true).
  { intros k H. cbn [Re.sub_go]. rewrite rmatch_comment.
    destruct (HASH =? c)%N eqn:Eh.
    - cbn [app]. apply fence_free_tail in H. now apply (IHb 0).
    - cbn [fence_free_from] in *. destruct (c =? BT)%N.
      + apply andb_true_iff in H as [Hk H]. rewrite Hk. now apply IHa.
      + now apply IHa. }
  split; [exact A|].
  intros j k H. cbn [line_rest].
  destruct (c =? LF)%N eqn:El.
  - apply N.eqb_eq in El. subst c.
    cbn [Re.sub_go]. rewrite rmatch_comment.
    change ((HASH =? LF)%N) with false. cbn iota.
    apply fence_free_tail in H. cbn [fence_free_from].
    change ((LF =? BT)%N) with false. cbn iota. now apply IHa.
  - cbn [Re.sub_go]. apply fence_free_tail in H. now apply (IHb 0).
Qed.

Lemma fence_free_sub_comment (s : str) :
  fence_free_from 0 s = true ->
  fence_free_from 0 (Re.sub comment_re [] s) = true.
Proof. apply (proj1 (fence_free_sub_comment_go s)). Qed.

Lemma fence_free_clean_lines (ls : list str) :
  Forall (fun l => fence_free_from 0 l = true) ls ->
  Forall (fun l => fence_free_from 0 l = true)
         (map (replace [TAB] [SP; SP]) (filter nonblank ls)).
Proof.
  induction 1 as [|l ls Hl _ IH]; simpl; [constructor|].
  destruct (nonblank l); [|exact IH].
  constructor; [now apply fence_free_replace_tab | exact IH].
Qed.

Lemma clean_response_fence_free (text : str) :
  fence_free_from 0 (ICLAgent._clean_response text) = true.
Proof.
  unfold ICLAgent._clean_response.
  destruct (negb (truthy text)); [reflexivity|].
  apply fence_free_join.
  apply (fence_free_clean_lines (ls := splitlines _)).
  apply fence_free_splitlines, fence_free_strip, fence_free_sub_comment.
  apply fence_free_replace_fence.
Qed.

End FenceFree.

(* ================================================================== *)
(** ** The sanitiser on plain text *)
(* ================================================================== *)

Section PlainText.

Lemma splitlines_chars (u l : str) (c : char) :
  (forall x, In x u -> islinebreak x = true -> x = LF) ->
  (forall a, u <> a ++ [LF]) ->
  In l (splitlines u) -> In c l -> In c u.
Proof.
  intros Hlf Hend Hl Hc.
  rewrite <- (join_splitlines Hlf Hend).
  eapply in_join; eauto.
Qed.

(** On a text without marker, '#', tab, blank line or foreign line
    boundary, sanitising is [strip]. *)
Lemma clean_response_plain (t : str) :
  plain_text t -> ICLAgent._clean_response t = strip t.
Proof.
  intros [Hfence Hhash Htab Hlf Hblank].
  unfold ICLAgent._clean_response.
  destruct t as [|c0 t0]; [reflexivity|]. cbn [truthy negb].
  set (t := c0 :: t0) in *.
  rewrite sub_opening_fence_id by exact Hfence.
  rewrite replace_fence_id by exact Hfence.
  rewrite sub_comment_id by exact Hhash.
  assert (Hlf' : forall x, In x (strip t) -> islinebreak x = true -> x = LF)
    by (intros x Hx; apply Hlf; now apply strip_In).
  assert (Hend : forall a, strip t <> a ++ [LF])
    by (intros a; apply strip_not_ending_in_LF).
  rewrite filter_all by exact Hblank.
  rewrite map_id_on.
  - now apply join_splitlines.
  - intros l Hl. apply replace_tab_id. intros Hc.
    apply Htab. apply strip_In.
    eapply splitlines_chars; eauto.
Qed.

End PlainText.

(* ================================================================== *)
(** ** Running the effects *)
(* ================================================================== *)

Section Running.

Lemma bind_Return (A B : Type) (c : M A) (k : A -> M B) (st st' : state) (a : A) :
  c st = (Return a, st') -> bind c k st = k a st'.
Proof. unfold bind. now intros ->. Qed.

Lemma bind_Raise (A B : Type) (c : M A) (k : A -> M B) (st st' : state) (e : exn) :
  c st = (Raise e, st') -> bind c k st = (Raise e, st').
Proof. unfold bind. now intros ->. Qed.

(** A [bind] returns only when both halves return. *)
Lemma bind_Return_inv (A B : Type) (c : M A) (k : A -> M B) (st st2 : state) (b : B) :
  bind c k st = (Return b, st2) ->
  exists a st1, c st = (Return a, st1) /\ k a st1 = (Return b, st2).
Proof.
  unfold bind. destruct (c st) as [[a|e] st1]; [eauto | discriminate].
Qed.

Lemma try_Return (A : Type) (body : M A) (h : exn -> option (M A))
    (st st' : state) (a : A) :
  body st = (Return a, st') -> try_except body h st = (Return a, st').
Proof. unfold try_except. now intros ->. Qed.

Lemma try_Raise (A : Type) (body : M A) (h : exn -> option (M A))
    (st st' : state) (e : exn) :
  body st = (Raise e, st') ->
  try_except body h st =
  match h e with Some handler => handler st' | None => (Raise e, st') end.
Proof. unfold try_except. now intros ->. Qed.

Lemma log_prints (message type : str) (st : state) :
  exists line, ICLAgent.log message type st = (Return tt, printed line st).
Proof. unfold ICLAgent.log, print, printed. eauto. Qed.

Lemma log_error (message : str) (st : state) :
  ICLAgent.log message (py "error") st = (Return tt, printed (error_line message) st).
Proof. reflexivity. Qed.

End Running.

(* ================================================================== *)
(** ** The parser, case by case *)
(* ================================================================== *)

Section Parser.
Variable w : World.

Lemma parse_no_document (content : str) (st : state) :
  yaml_safe_load_all w content = Return [] ->
  ICLAgent._parse_yaml_safely w content st = (Raise empty_content, st).
Proof.
  intros H. unfold ICLAgent._parse_yaml_safely, try_except, bind, lift.
  rewrite H. reflexivity.
Qed.

Lemma parse_one_document (content : str) (st : state) (d : value) :
  yaml_safe_load_all w content = Return [d] ->
  ICLAgent._parse_yaml_safely w content st = (Return d, st).
Proof.
  intros H. unfold ICLAgent._parse_yaml_safely, try_except, bind, lift.
  rewrite H. reflexivity.
Qed.

Lemma parse_many_documents (content : str) (st : state) (docs : list value) :
  yaml_safe_load_all w content = Return docs -> 2 <= List.length docs ->
  ICLAgent._parse_yaml_safely w content st = (Return (documents_wrapper docs), st).
Proof.
  intros H Hlen. unfold ICLAgent._parse_yaml_safely, try_except, bind, lift.
  rewrite H. destruct docs as [|d1 [|d2 ds]]; simpl in Hlen; try lia.
  reflexivity.
Qed.

Lemma parse_yaml_error (content : str) (st : state) (e : exn) :
  yaml_safe_load_all w content = Raise e -> isinstance_YAMLError e = true ->
  ICLAgent._parse_yaml_safely w content st =
  (Return (error_document (datetime_str w (datetime_now w (ticks st)))),
   ticked (printed (error_line (py "YAML parsing failed: " ++ exn_msg e)) st)).
Proof.
  intros H He.
  unfold ICLAgent._parse_yaml_safely, try_except, bind, lift, except_YAMLError.
  rewrite H, He. reflexivity.
Qed.

Lemma parse_other_error (content : str) (st : state) (e : exn) :
  yaml_safe_load_all w content = Raise e -> isinstance_YAMLError e = false ->
  ICLAgent._parse_yaml_safely w content st = (Raise e, st).
Proof.
  intros H He.
  unfold ICLAgent._parse_yaml_safely, try_except, bind, lift, except_YAMLError.
  rewrite H, He. reflexivity.
Qed.

(** Whatever the parser returns or raises, it is one of the cases
    above. *)
Lemma parse_cases (content : str) (st : state) :
  (exists d, ICLAgent._parse_yaml_safely w content st = (Return d, st)) \/
  (exists line,
     ICLAgent._parse_yaml_safely w content st =
     (Return (error_document (datetime_str w (datetime_now w (ticks st)))),
      ticked (printed line st))) \/
  (exists e, ICLAgent._parse_yaml_safely w content st = (Raise e, st)).
Proof.
  destruct (yaml_safe_load_all w content) as [docs|e] eqn:H.
  - destruct docs as [|d1 [|d2 ds]].
    + right; right. eexists. eapply parse_no_document; exact H.
    + left. eexists. eapply parse_one_document; exact H.
    + left. eexists. eapply parse_many_documents; [exact H | simpl; lia].
  - destruct (isinstance_YAMLError e) eqn:He.
    + right; left. eexists. eapply parse_yaml_error; [exact H | exact He].
    + right; right. eexists. eapply parse_other_error; [exact H | exact He].
Qed.

End Parser.

(* ================================================================== *)
(** ** The parser *)
(* ================================================================== *)

Section ParserClaims.

(** C4.  When the sanitised text holds exactly one document the parser
    returns that document itself; when it holds two or more, the parser
    returns the mapping with the single key "documents" whose value is
    the list of the documents in the order the loader produced them. *)
Theorem parse_single_or_many (w : World) (content : str) (st : state)
    (docs : list value) :
  yaml_safe_load_all w content = Return docs ->
  (forall d, docs = [d] ->
     ICLAgent._parse_yaml_safely w content st = (Return d, st)) /\
  (2 <= List.length docs ->
     ICLAgent._parse_yaml_safely w content st =
     (Return (VDict [(vstr "documents", VList docs)]), st)).
Proof.
  intros H. split.
  - intros d ->. now apply parse_one_document.
  - intros Hlen. now apply parse_many_documents.
Qed.

Lemma parse_single_or_many_witness :
  let w := Fixture.world (Return []) true (Return tt) in
  ICLAgent._parse_yaml_safely w Fixture.webapp_text Fixture.st0 =
    (Return Fixture.webapp_doc, Fixture.st0) /\
  ICLAgent._parse_yaml_safely w Fixture.two_docs_text Fixture.st0 =
    (Return (VDict [(vstr "documents",
                     VList [ VDict [(vstr "a", VInt 1)];
                             VDict [(vstr "b", VInt 2)] ])]), Fixture.st0).
Proof.
  intro w. split.
  - apply (proj1 (@parse_single_or_many w Fixture.webapp_text Fixture.st0
                    [Fixture.webapp_doc] eq_refl) Fixture.webapp_doc eq_refl).
  - apply (proj2 (@parse_single_or_many w Fixture.two_docs_text Fixture.st0
                    Fixture.two_docs eq_refl)).
    simpl. lia.
Defined.

(** C5.  When the loader fails on the sanitised text with a YAML error,
    the parser does not raise: it prints the failure and returns exactly
    the mapping with "error" set to "Failed to parse YAML" and
    "timestamp" set to the clock reading, as a string. *)
Theorem parse_structural_error (w : World) (content : str) (st : state)
    (e : exn) :
  yaml_safe_load_all w content = Raise e ->
  isinstance_YAMLError e = true ->
  ICLAgent._parse_yaml_safely w content st =
  (Return (VDict [ (vstr "error", vstr "Failed to parse YAML");
                   (vstr "timestamp",
                    VStr (datetime_str w (datetime_now w (ticks st)))) ]),
   ticked (printed (error_line (py "YAML parsing failed: " ++ exn_msg e)) st)).
Proof. intros H He. now apply parse_yaml_error. Qed.

Lemma parse_structural_error_witness :
  ICLAgent._parse_yaml_safely (Fixture.world (Return []) true (Return tt))
    (py ": : :") Fixture.st0 =
  (Return (VDict [ (vstr "error", vstr "Failed to parse YAML");
                   (vstr "timestamp", vstr "2025-01-01 12:00:00.000000") ]),
   ticked (printed (error_line (py "YAML parsing failed: "
                                ++ exn_msg Fixture.parser_error)) Fixture.st0)).
Proof.
  apply (@parse_structural_error (Fixture.world (Return []) true (Return tt))
           (py ": : :") Fixture.st0 Fixture.parser_error); reflexivity.
Defined.

(** C1, as the code has it.  On a text that holds no document, the
    parser of either class raises ValueError("Empty YAML content"); that
    is no YAML error, so the parser's own handler lets it through, and
    it is left to the callers.  The interactive request handler turns it
    into the mapping with the single key "error" (no timestamp). *)
Theorem parse_empty_content_raises (w : World) (content : str) (st : state) :
  yaml_safe_load_all w content = Return [] ->
  ICLAgent._parse_yaml_safely w content st = (Raise empty_content, st) /\
  StreamlitICLAgent._parse_yaml_safely w content st = (Raise empty_content, st) /\
  isinstance_YAMLError empty_content = false /\
  (forall self user_input text,
     generate_content w (calls st)
       [StreamlitICLAgent.request_prompt w self user_input] = Return text ->
     StreamlitICLAgent._clean_response text = content ->
     StreamlitICLAgent.process_request w self user_input st =
     (Return (VDict [(vstr "error", vstr "Empty YAML content")]),
      reported (py "Error processing request: Empty YAML content") (called st))).
Proof.
  intros H. split; [now apply parse_no_document|].
  assert (HS : forall st0, StreamlitICLAgent._parse_yaml_safely w content st0
                           = (Raise empty_content, st0)).
  { intros st0. unfold StreamlitICLAgent._parse_yaml_safely, try_except, bind, lift.
    rewrite H. reflexivity. }
  split; [apply HS|]. split; [reflexivity|].
  intros self user_input text Hgen Hclean.
  unfold StreamlitICLAgent.process_request, StreamlitICLAgent.process_request_try.
  erewrite try_Raise.
  2:{ erewrite bind_Return.
      2:{ unfold model_generate. rewrite Hgen. reflexivity. }
      rewrite Hclean. apply HS. }
  reflexivity.
Qed.

Lemma parse_empty_content_raises_witness :
  ICLAgent._parse_yaml_safely (Fixture.world (Return []) true (Return tt))
    [] Fixture.st0 = (Raise empty_content, Fixture.st0).
Proof.
  apply (proj1 (@parse_empty_content_raises
                  (Fixture.world (Return []) true (Return tt)) []
                  Fixture.st0 eq_refl)).
Defined.

(** C1 as stated fails: the empty text is sanitised to the empty text,
    which holds no document, and the parser returns nothing on it. *)
Lemma parse_empty_content_counterexample :
  let w := Fixture.world (Return []) true (Return tt) in
  yaml_safe_load_all w (ICLAgent._clean_response []) = Return [] /\
  forall d st', ICLAgent._parse_yaml_safely w (ICLAgent._clean_response [])
                  Fixture.st0 <> (Return d, st').
Proof.
  intro w. split; [reflexivity|].
  intros d st' H. discriminate H.
Qed.

End ParserClaims.

(* ================================================================== *)
(** ** The sanitiser *)
(* ================================================================== *)

Section SanitiserClaims.

Example clean_response_empty : ICLAgent._clean_response [] = [].
Proof. reflexivity. Qed.

(** A fenced answer with a language tag, a comment, an empty line and a
    tab. *)
Example clean_response_fenced :
  ICLAgent._clean_response
    (py "```yaml" ++ [LF] ++ py "a: 1 # one" ++ [LF; LF; TAB] ++ py "b: 2"
     ++ [LF] ++ py "```" ++ [LF])
  = py "a: 1 " ++ [LF] ++ py "  b: 2".
Proof. reflexivity. Qed.

(** Four backticks and a line end: the pattern takes the last three. *)
Example clean_response_four_backticks :
  ICLAgent._clean_response (py "````" ++ [LF] ++ py "a: 1") = py "`a: 1".
Proof. reflexivity. Qed.

(** C6.  Whatever the raw model output, fenced or not, the sanitised
    text contains no run of three backticks: every fence marker is
    gone and none is formed by what remains. *)
Theorem clean_response_removes_fences (text : str) :
  ~ occurs fence (ICLAgent._clean_response text).
Proof. apply fence_free_sound, clean_response_fence_free. Qed.

(** C10.  The two classes sanitise alike and parse alike: same text out
    of [_clean_response]; same value or exception out of
    [_parse_yaml_safely], same clock readings, remote calls and files;
    only the place where a YAML error is reported differs. *)
Theorem drivers_agree :
  (forall text,
     StreamlitICLAgent._clean_response text = ICLAgent._clean_response text) /\
  (forall w content st,
     let s := StreamlitICLAgent._parse_yaml_safely w content st in
     let i := ICLAgent._parse_yaml_safely w content st in
     fst s = fst i /\ ticks (snd s) = ticks (snd i) /\
     calls (snd s) = calls (snd i) /\ files (snd s) = files (snd i)).
Proof.
  split; [reflexivity|].
  intros w content st.
  unfold StreamlitICLAgent._parse_yaml_safely, ICLAgent._parse_yaml_safely,
         try_except, bind, lift, except_YAMLError.
  destruct (yaml_safe_load_all w content) as [[|d1 [|d2 ds]]|e]; cbn;
    try (repeat split; reflexivity).
  destruct (isinstance_YAMLError e); cbn; repeat split; reflexivity.
Qed.

End SanitiserClaims.

(* ================================================================== *)
(** ** Serialise, sanitise, parse *)
(* ================================================================== *)

Section RoundTrip.

(** C3, as the code has it.  When the serialisation of a document holds
    no fence marker, no '#', no tab, no line boundary other than "\n"
    and no blank line, sanitising it only strips its ends; so when the
    loader reads the stripped text as that one document, parsing the
    sanitised serialisation returns the document. *)
Theorem roundtrip_plain_serialisation (w : World) (opts : dump_opts)
    (d : value) (st : state) :
  plain_text (yaml_dump w opts d) ->
  yaml_safe_load_all w (strip (yaml_dump w opts d)) = Return [d] ->
  ICLAgent._clean_response (yaml_dump w opts d) = strip (yaml_dump w opts d) /\
  ICLAgent._parse_yaml_safely w
    (ICLAgent._clean_response (yaml_dump w opts d)) st = (Return d, st).
Proof.
  intros Hplain Hload.
  pose proof (clean_response_plain Hplain) as E.
  split; [exact E|].
  rewrite E. now apply parse_one_document.
Qed.

Lemma cache_dump_plain : plain_text Fixture.cache_dump.
Proof.
  constructor.
  - apply fence_free_sound. reflexivity.
  - intros H. cbv in H. repeat (destruct H as [H|H]; [discriminate H|]). exact H.
  - intros H. cbv in H. repeat (destruct H as [H|H]; [discriminate H|]). exact H.
  - intros c H. cbv in H.
    repeat (destruct H as [H|H]; [subst c; intros E; try reflexivity; discriminate E|]).
    contradiction.
  - repeat constructor.
Qed.

Lemma roundtrip_plain_serialisation_witness :
  let w := Fixture.world (Return []) true (Return tt) in
  let opts := mk_dump_opts None None None in
  ICLAgent._parse_yaml_safely w
    (ICLAgent._clean_response (yaml_dump w opts Fixture.cache_doc)) Fixture.st0
  = (Return Fixture.cache_doc, Fixture.st0).
Proof.
  intros w opts.
  apply (proj2 (@roundtrip_plain_serialisation w opts Fixture.cache_doc
                  Fixture.st0 cache_dump_plain eq_refl)).
Defined.

(** C3 as stated fails on a string value with a line break in it: the
    document is serialised and read back as itself, none of its strings
    has a '#', a backtick or a tab, yet the sanitiser drops the empty
    line of the serialisation and the parser returns another document. *)
Lemma roundtrip_multiline_counterexample :
  yaml_safe_load_all (Fixture.world (Return []) true (Return tt))
    (yaml_dump (Fixture.world (Return []) true (Return tt))
       (mk_dump_opts None None None) Fixture.multiline_doc)
  = Return [Fixture.multiline_doc] /\
  existsb (fun c => (c =? HASH)%N || (c =? BT)%N || (c =? TAB)%N)
          (value_chars Fixture.multiline_doc) = false /\
  ICLAgent._parse_yaml_safely (Fixture.world (Return []) true (Return tt))
    (ICLAgent._clean_response
       (yaml_dump (Fixture.world (Return []) true (Return tt))
          (mk_dump_opts None None None) Fixture.multiline_doc)) Fixture.st0
  = (Return (VDict [(vstr "a", vstr "x y")]), Fixture.st0) /\
  VDict [(vstr "a", vstr "x y")] <> Fixture.multiline_doc.
Proof.
  split; [reflexivity|]. split; [reflexivity|]. split; [reflexivity|].
  intros H. discriminate H.
Qed.

End RoundTrip.

(* ================================================================== *)
(** ** Loading the knowledge base *)
(* ================================================================== *)

Section Knowledge.
Variable w : World.

(** What the [try] block of [_load_knowledge] stores went through the
    parser and the validation. *)
Lemma load_knowledge_try_Return (self a : ICLAgent.agent) (st st' : state) :
  ICLAgent._load_knowledge_try w self st = (Return a, st') ->
  exists text st1 st2 k,
    ICLAgent._parse_yaml_safely w (ICLAgent._clean_response text) st1
      = (Return k, st2) /\
    isinstance_dict k = true /\ value_truthy k = true /\
    a = ICLAgent.set_knowledge self k.
Proof.
  unfold ICLAgent._load_knowledge_try. intros H.
  apply bind_Return_inv in H as (u1 & s1 & _ & H).
  apply bind_Return_inv in H as (u2 & s2 & _ & H).
  apply bind_Return_inv in H as (pages & s3 & _ & H).
  apply bind_Return_inv in H as (u4 & s4 & _ & H).
  apply bind_Return_inv in H as (text & s5 & _ & H).
  apply bind_Return_inv in H as (k & s6 & Hparse & H).
  apply bind_Return_inv in H as (u7 & s7 & Hvalid & H).
  apply bind_Return_inv in H as (u8 & s8 & _ & H).
  exists text, s5, s6, k. split; [exact Hparse|].
  destruct (isinstance_dict k), (value_truthy k); try discriminate Hvalid.
  repeat split. unfold ret in H. congruence.
Qed.

(** Loading never raises; it ends with the stored parse result or with
    the default. *)
Lemma load_knowledge_total (self : ICLAgent.agent) (st : state) :
  exists a st',
    ICLAgent._load_knowledge w self st = (Return a, st') /\
    (ICLAgent._load_knowledge_try w self st = (Return a, st') \/
     a = ICLAgent.set_knowledge self default_knowledge).
Proof.
  unfold ICLAgent._load_knowledge.
  destruct (ICLAgent._load_knowledge_try w self st) as [[a|e] st1] eqn:E.
  - exists a, st1. split; [now apply try_Return | now left].
  - erewrite try_Raise by exact E. unfold except_Exception.
    destruct (log_prints (py "Error loading documentation: " ++ exn_msg e)
                (py "error") st1) as [line Hl].
    erewrite bind_Return by exact Hl.
    eexists _, _. split; [reflexivity | now right].
Qed.

(** A reference document that does not exist: the default. *)
Lemma load_knowledge_missing_document (self : ICLAgent.agent) (st : state) :
  path_exists w (ICLAgent.doc_path self) = false ->
  fst (ICLAgent._load_knowledge w self st)
  = Return (ICLAgent.set_knowledge self default_knowledge).
Proof.
  intros H.
  unfold ICLAgent._load_knowledge, ICLAgent._load_knowledge_try,
         try_except, bind.
  destruct (log_prints (py "Reading documentation...") (py "think") st)
    as [line ->].
  rewrite H. reflexivity.
Qed.

(** A response the loader rejects with a YAML error: the parser's error
    document passes the validation and is stored. *)
Lemma load_knowledge_yaml_error (self : ICLAgent.agent) (st : state)
    (pages : list str) (text : str) (e : exn) :
  path_exists w (ICLAgent.doc_path self) = true ->
  pdf_pages w (ICLAgent.doc_path self) = Return pages ->
  generate_content w (calls st)
    [ICLAgent.knowledge_prompt; join [LF] (filter truthy pages)] = Return text ->
  yaml_safe_load_all w (ICLAgent._clean_response text) = Raise e ->
  isinstance_YAMLError e = true ->
  fst (ICLAgent._load_knowledge w self st)
  = Return (ICLAgent.set_knowledge self
              (error_document (datetime_str w (datetime_now w (ticks st))))).
Proof.
  intros Hex Hpdf Hgen Hload He.
  unfold ICLAgent._load_knowledge, ICLAgent._load_knowledge_try.
  unfold try_except at 1. unfold bind at 1.
  destruct (log_prints (py "Reading documentation...") (py "think") st)
    as [l1 ->].
  unfold bind at 1. rewrite Hex. cbn [negb ret].
  unfold bind at 1. unfold lift at 1. rewrite Hpdf.
  unfold bind at 1.
  destruct (log_prints (py "Extracting key information...") (py "think")
              (printed l1 st)) as [l2 ->].
  unfold bind at 1. unfold model_generate at 1.
  cbn [calls printed]. rewrite Hgen.
  unfold bind at 1. rewrite (parse_yaml_error _ _ _ Hload He).
  reflexivity.
Qed.

End Knowledge.

Section KnowledgeClaims.

(** C2, as the code has it.  When construction completes, the knowledge
    base is a mapping and is not empty: it is the default, with its four
    sections, or it is what the parser returned for a response of the
    model, a mapping whose keys construction does not look at.  (The
    request and update operations receive the agent and give none back:
    neither assigns an attribute.) *)
Theorem init_knowledge_nonempty_mapping (w : World)
    (doc_path api_key output_dir : str) (st st' : state) (a : ICLAgent.agent) :
  ICLAgent.__init__ w doc_path api_key output_dir st = (Return a, st') ->
  isinstance_dict (ICLAgent.knowledge a) = true /\
  value_truthy (ICLAgent.knowledge a) = true /\
  ((ICLAgent.knowledge a = default_knowledge /\
    has_four_sections (ICLAgent.knowledge a) = true) \/
   exists text st1 st2,
     ICLAgent._parse_yaml_safely w (ICLAgent._clean_response text) st1
     = (Return (ICLAgent.knowledge a), st2)).
Proof.
  unfold ICLAgent.__init__. intros H.
  apply bind_Return_inv in H as (u1 & s1 & _ & H).
  apply bind_Return_inv in H as (u2 & s2 & _ & H).
  destruct (load_knowledge_total w
              (ICLAgent.mk_agent doc_path output_dir (VDict [])) s2)
    as (a' & s3 & Hrun & Hcase).
  rewrite Hrun in H. injection H as -> ->.
  destruct Hcase as [Htry | ->].
  - apply load_knowledge_try_Return in Htry
      as (text & st1 & st2 & k & Hparse & Hd & Ht & ->).
    cbn [ICLAgent.set_knowledge ICLAgent.knowledge].
    repeat split; auto. right. eauto.
  - cbn [ICLAgent.set_knowledge ICLAgent.knowledge].
    repeat split; auto.
Qed.

Lemma init_knowledge_nonempty_mapping_witness :
  isinstance_dict Fixture.webapp_doc = true /\
  value_truthy Fixture.webapp_doc = true /\
  ((Fixture.webapp_doc = default_knowledge /\
    has_four_sections Fixture.webapp_doc = true) \/
   exists text st1 st2,
     ICLAgent._parse_yaml_safely
       (Fixture.world (Return Fixture.webapp_response) true (Return tt))
       (ICLAgent._clean_response text) st1
     = (Return Fixture.webapp_doc, st2)).
Proof.
  apply (@init_knowledge_nonempty_mapping
           (Fixture.world (Return Fixture.webapp_response) true (Return tt))
           (py "icl.pdf") (py "key") (py "configs") Fixture.st0
           (snd (ICLAgent.__init__
                   (Fixture.world (Return Fixture.webapp_response) true (Return tt))
                   (py "icl.pdf") (py "key") (py "configs") Fixture.st0))
           (ICLAgent.mk_agent (py "icl.pdf") (py "configs") Fixture.webapp_doc)).
  reflexivity.
Defined.

(** C2 as stated fails: the reference document is there, the model
    answers with a well-formed mapping that has none of the four
    sections, and construction completes with that mapping as the
    knowledge base. *)
Lemma init_knowledge_counterexample :
  fst (ICLAgent.__init__
         (Fixture.world (Return Fixture.webapp_response) true (Return tt))
         (py "icl.pdf") (py "key") (py "configs") Fixture.st0)
  = Return (ICLAgent.mk_agent (py "icl.pdf") (py "configs") Fixture.webapp_doc) /\
  has_key (py "schema") Fixture.webapp_doc = false /\
  has_key (py "rules") Fixture.webapp_doc = false /\
  has_key (py "practices") Fixture.webapp_doc = false /\
  has_key (py "patterns") Fixture.webapp_doc = false.
Proof. repeat split; reflexivity. Qed.

(** C7 at the failing input.  The reference document is there and the
    model's answer is malformed YAML: loading returns normally and the
    knowledge base is the parser's error document, not the default. *)
Theorem load_knowledge_keeps_error_document :
  fst (ICLAgent._load_knowledge
         (Fixture.world (Return (py ": : :")) true (Return tt))
         Fixture.icl_self Fixture.st0)
  = Return (ICLAgent.mk_agent (py "icl.pdf") (py "configs")
              (VDict [ (vstr "error", vstr "Failed to parse YAML");
                       (vstr "timestamp", vstr "2025-01-01 12:00:00.000000") ])) /\
  has_four_sections
    (VDict [ (vstr "error", vstr "Failed to parse YAML");
             (vstr "timestamp", vstr "2025-01-01 12:00:00.000000") ]) = false.
Proof. split; reflexivity. Qed.

End KnowledgeClaims.

(* ================================================================== *)
(** ** The request handlers *)
(* ================================================================== *)

Section Handlers.

(** [except Exception as e: self.log(prefix + str(e), "error"); raise] *)
Lemma try_log_reraise (A : Type) (body : M A) (prefix : str) (st : state) :
  let op := try_except body
              (except_Exception (fun e =>
                 ICLAgent.log (prefix ++ exn_msg e) (py "error") ;; raise e)) in
  (forall e st1, body st = (Raise e, st1) ->
     op st = (Raise e, printed (error_line (prefix ++ exn_msg e)) st1)) /\
  (forall r st1, op st = (Return r, st1) -> body st = (Return r, st1)).
Proof.
  cbn zeta. unfold try_except, except_Exception. split.
  - intros e st1 ->. reflexivity.
  - intros r st1. destruct (body st) as [[a|e] st2]; [easy|].
    unfold bind. rewrite log_error. discriminate.
Qed.

Lemma generate_fails (w : World) (A : Type) (line : str) (parts : list str)
    (k : str -> M A) (st : state) (e : exn) :
  generate_content w (calls st) parts = Raise e ->
  (text <- model_generate w parts ;; k text) (printed line st)
  = (Raise e, called (printed line st)).
Proof.
  intros H. unfold bind, model_generate. cbn [calls printed].
  rewrite H. reflexivity.
Qed.

(** A failure of the file system inside [_save_yaml] leaves it as the
    same exception. *)
Lemma save_yaml_fails (w : World) (self : ICLAgent.agent) (data : value)
    (name : option str) (st : state) (e : exn) :
  (forall path content, open_write w path content = Raise e) ->
  fst (ICLAgent._save_yaml w self data name st) = Raise e.
Proof.
  intros H. unfold ICLAgent._save_yaml, try_except, bind, now, write_file.
  rewrite H. reflexivity.
Qed.

End Handlers.

Section HandlerClaims.

(** C8.  In [ICLAgent.process_request] and [update_configuration], an
    exception raised inside the [try] block is printed as an error and
    raised again, the same exception; and the operation returns a value
    only when its [try] block returned that value.  So a failure of the
    remote call reaches the caller as it is. *)
Theorem operations_reraise (w : World) (self : ICLAgent.agent) (st : state) :
  (forall user_input e st1,
     ICLAgent.process_request_try w self user_input st = (Raise e, st1) ->
     ICLAgent.process_request w self user_input st =
     (Raise e, printed (error_line (py "Error processing request: " ++ exn_msg e)) st1)) /\
  (forall current_config update_request e st1,
     ICLAgent.update_configuration_try w self current_config update_request st
       = (Raise e, st1) ->
     ICLAgent.update_configuration w self current_config update_request st =
     (Raise e, printed (error_line (py "Error updating configuration: " ++ exn_msg e)) st1)) /\
  (forall user_input r st1,
     ICLAgent.process_request w self user_input st = (Return r, st1) ->
     ICLAgent.process_request_try w self user_input st = (Return r, st1)) /\
  (forall current_config update_request r st1,
     ICLAgent.update_configuration w self current_config update_request st
       = (Return r, st1) ->
     ICLAgent.update_configuration_try w self current_config update_request st
       = (Return r, st1)) /\
  (forall user_input e,
     generate_content w (calls st) [ICLAgent.request_prompt w self user_input]
       = Raise e ->
     fst (ICLAgent.process_request w self user_input st) = Raise e) /\
  (forall current_config update_request e,
     generate_content w (calls st)
       [ICLAgent.update_prompt w self current_config update_request] = Raise e ->
     fst (ICLAgent.update_configuration w self current_config update_request st)
       = Raise e).
Proof.
  split; [|split; [|split; [|split; [|split]]]].
  - intros user_input.
    apply (proj1 (try_log_reraise
                    (ICLAgent.process_request_try w self user_input)
                    (py "Error processing request: ") st)).
  - intros current_config update_request.
    apply (proj1 (try_log_reraise
                    (ICLAgent.update_configuration_try w self current_config
                       update_request)
                    (py "Error updating configuration: ") st)).
  - intros user_input.
    apply (proj2 (try_log_reraise
                    (ICLAgent.process_request_try w self user_input)
                    (py "Error processing request: ") st)).
  - intros current_config update_request.
    apply (proj2 (try_log_reraise
                    (ICLAgent.update_configuration_try w self current_config
                       update_request)
                    (py "Error updating configuration: ") st)).
  - intros user_input e H.
    destruct (log_prints (py "Processing request: " ++ user_input) (py "think") st)
      as [line Hl].
    unfold ICLAgent.process_request.
    erewrite (proj1 (try_log_reraise _ _ st)); [reflexivity|].
    unfold ICLAgent.process_request_try.
    erewrite bind_Return by exact Hl.
    now apply generate_fails.
  - intros current_config update_request e H.
    destruct (log_prints (py "Processing update: " ++ update_request) (py "think") st)
      as [line Hl].
    unfold ICLAgent.update_configuration.
    erewrite (proj1 (try_log_reraise _ _ st)); [reflexivity|].
    unfold ICLAgent.update_configuration_try.
    erewrite bind_Return by exact Hl.
    now apply generate_fails.
Qed.

Lemma operations_reraise_witness :
  fst (ICLAgent.process_request
         (Fixture.world (Raise Fixture.transport_error) true (Return tt))
         Fixture.icl_self (py "Deploy a Node.js app") Fixture.st0)
  = Raise Fixture.transport_error.
Proof.
  apply (proj1 (proj2 (proj2 (proj2 (proj2
           (@operations_reraise
              (Fixture.world (Raise Fixture.transport_error) true (Return tt))
              Fixture.icl_self Fixture.st0)))))
           (py "Deploy a Node.js app") Fixture.transport_error eq_refl).
Defined.

(** A failure of the disk while saving reaches the caller of
    [process_request] as it is. *)
Lemma process_request_disk_failure :
  fst (ICLAgent.process_request
         (Fixture.world (Return Fixture.webapp_response) true
            (Raise Fixture.disk_error))
         Fixture.icl_self (py "Deploy a Node.js app") Fixture.st0)
  = Raise Fixture.disk_error.
Proof. reflexivity. Qed.

(** C9.  [StreamlitICLAgent.process_request] always returns.  When its
    [try] block raises, by a failure of the remote call or by an
    exception the parser lets through, the message goes to [st.error]
    and the value returned is the mapping with the single key "error"
    holding the exception's message. *)
Theorem streamlit_process_request_returns (w : World)
    (self : StreamlitICLAgent.agent) (user_input : str) (st : state) :
  (exists d st',
     StreamlitICLAgent.process_request w self user_input st = (Return d, st')) /\
  (forall e st1,
     StreamlitICLAgent.process_request_try w self user_input st = (Raise e, st1) ->
     StreamlitICLAgent.process_request w self user_input st =
     (Return (VDict [(vstr "error", VStr (exn_msg e))]),
      reported (py "Error processing request: " ++ exn_msg e) st1)) /\
  (forall e,
     generate_content w (calls st)
       [StreamlitICLAgent.request_prompt w self user_input] = Raise e ->
     fst (StreamlitICLAgent.process_request w self user_input st)
     = Return (VDict [(vstr "error", VStr (exn_msg e))])).
Proof.
  assert (Hraise : forall e st1,
     StreamlitICLAgent.process_request_try w self user_input st = (Raise e, st1) ->
     StreamlitICLAgent.process_request w self user_input st =
     (Return (VDict [(vstr "error", VStr (exn_msg e))]),
      reported (py "Error processing request: " ++ exn_msg e) st1)).
  { intros e st1 H. unfold StreamlitICLAgent.process_request.
    erewrite try_Raise by exact H. reflexivity. }
  split; [|split; [exact Hraise|]].
  - destruct (StreamlitICLAgent.process_request_try w self user_input st)
      as [[d|e] st1] eqn:E.
    + exists d, st1. unfold StreamlitICLAgent.process_request.
      now apply try_Return.
    + eexists _, _. now apply Hraise.
  - intros e H.
    erewrite Hraise; [reflexivity|].
    unfold StreamlitICLAgent.process_request_try, bind, model_generate.
    rewrite H. reflexivity.
Qed.

Lemma streamlit_process_request_returns_witness :
  fst (StreamlitICLAgent.process_request
         (Fixture.world (Raise Fixture.transport_error) true (Return tt))
         (StreamlitICLAgent.mk_agent default_knowledge)
         (py "Deploy a Node.js app") Fixture.st0)
  = Return (VDict [(vstr "error", vstr "503 The model is overloaded")]).
Proof.
  apply (proj2 (proj2
           (@streamlit_process_request_returns
              (Fixture.world (Raise Fixture.transport_error) true (Return tt))
              (StreamlitICLAgent.mk_agent default_knowledge)
              (py "Deploy a Node.js app") Fixture.st0))
           Fixture.transport_error eq_refl).
Defined.

End HandlerClaims.

(* ================================================================== *)
(** ** What the sanitiser leaves *)
(* ================================================================== *)

Section SanitisedText.

Lemma clean_response_lines (text : str) :
  text <> [] -> ICLAgent._clean_response text = join [LF] (sanitised_lines text).
Proof. destruct text; [congruence | reflexivity]. Qed.

Lemma linebreak_isspace (c : char) : islinebreak c = true -> isspace c = true.
Proof.
  unfold islinebreak, isspace, between.
  rewrite !orb_true_iff, !andb_true_iff, !N.leb_le, !N.eqb_eq. lia.
Qed.

Lemma not_space_not_linebreak (c : char) :
  isspace c = false -> islinebreak c = false.
Proof.
  intros H. destruct (islinebreak c) eqn:E; [|reflexivity].
  apply linebreak_isspace in E. congruence.
Qed.

(** *** Comments *)

Lemma sub_comment_no_hash_go (s : str) :
  ~ In HASH (Re.sub_go comment_re [] 0 s) /\
  ~ In HASH (Re.sub_go comment_re [] (line_rest s) s).
Proof.
  induction s as [|c s [IHa IHb]]; [split; intros []|].
  assert (A : ~ In HASH (Re.sub_go comment_re [] 0 (c :: s))).
  { cbn [Re.sub_go]. rewrite rmatch_comment.
    destruct (HASH =? c)%N eqn:E; [exact IHb|].
    intros [H|H]; [|now apply IHa].
    subst c. now rewrite N.eqb_refl in E. }
  split; [exact A|].
  cbn [line_rest]. destruct (c =? LF)%N; [exact A | exact IHb].
Qed.

Lemma sub_comment_no_hash (s : str) : ~ In HASH (Re.sub comment_re [] s).
Proof. apply (proj1 (sub_comment_no_hash_go s)). Qed.

(** *** Lines *)

Lemma splitlines_from_lines (s cur : str) (l : str) :
  In l (splitlines_from cur s) ->
  (forall c, In c l -> In c (cur ++ s)) /\ (one_line cur -> one_line l).
Proof.
  revert cur l; induction s as [|c s IH]; intros cur l Hl.
  - destruct Hl as [<-|[]]. rewrite app_nil_r. now split.
  - cbn [splitlines_from] in Hl. destruct (islinebreak c) eqn:E.
    + destruct Hl as [<-|Hl].
      * split; [|easy]. intros x Hx. apply in_or_app. now left.
      * assert (Hs : In l (splitlines_from [] s) ->
                     (forall x, In x l -> In x (cur ++ c :: s)) /\
                     (one_line cur -> one_line l)).
        { intros H. destruct (IH [] l H) as [H1 H2]. split.
          - intros x Hx. apply in_or_app. right. right. now apply H1.
          - intros _. apply H2. constructor. }
        destruct s as [|d s']; [destruct Hl|].
        destruct ((c =? CR)%N && (d =? LF)%N) eqn:Ecr; [|now apply Hs].
        apply Hs. apply andb_true_iff in Ecr as [_ Ed].
        apply N.eqb_eq in Ed. subst d.
        cbn [splitlines_from]. change (islinebreak LF) with true. cbn iota.
        right. destruct s' as [|e s'']; [destruct Hl|].
        change ((LF =? CR)%N) with false. exact Hl.
    + destruct (IH (cur ++ [c]) l Hl) as [H1 H2]. split.
      * intros x Hx. specialize (H1 x Hx). now rewrite <- app_assoc in H1.
      * intros Hcur. apply H2. apply Forall_app. split; [exact Hcur|].
        now repeat constructor.
Qed.

Lemma splitlines_lines (s l : str) :
  In l (splitlines s) -> (forall c, In c l -> In c s) /\ one_line l.
Proof.
  destruct s as [|c s]; [intros []|]. intros Hl.
  destruct (splitlines_from_lines _ _ _ Hl) as [H1 H2].
  split; [exact H1 | apply H2; constructor].
Qed.

(** *** Tabs *)

Lemma replace_tab_flat_map (l : str) :
  replace [TAB] [SP; SP] l = flat_map expand_tab l.
Proof.
  unfold replace. induction l as [|c l IH]; [reflexivity|].
  cbn [replace_go startswith List.length Nat.sub flat_map]. unfold expand_tab at 1.
  destruct (TAB =? c)%N; cbn [andb app]; now rewrite IH.
Qed.

Lemma replace_tab_chars (l : str) (c : char) :
  In c (replace [TAB] [SP; SP] l) <-> (c = SP /\ In TAB l) \/ (c <> TAB /\ In c l).
Proof.
  rewrite replace_tab_flat_map, in_flat_map. unfold expand_tab. split.
  - intros (x & Hx & Hc). destruct (TAB =? x)%N eqn:E.
    + apply N.eqb_eq in E. subst x. left.
      destruct Hc as [<-|[<-|[]]]; now split.
    + destruct Hc as [<-|[]]. right. split; [|exact Hx].
      intros ->. now rewrite N.eqb_refl in E.
  - intros [[-> Ht]|[Hn Hc]].
    + exists TAB. split; [exact Ht|]. rewrite N.eqb_refl. now left.
    + exists c. split; [exact Hc|].
      destruct (TAB =? c)%N eqn:E; [|now left].
      apply N.eqb_eq in E. congruence.
Qed.

(** *** Blank lines *)

Lemma dropwhile_nil (f : char -> bool) (s : str) :
  dropwhile f s = [] <-> (forall c, In c s -> f c = true).
Proof.
  induction s as [|c s IH]; simpl.
  - split; [intros _ x [] | reflexivity].
  - destruct (f c) eqn:E.
    + rewrite IH. split.
      * intros H x [<-|Hx]; auto.
      * intros H x Hx. apply H. now right.
    + split; [discriminate|]. intros H.
      specialize (H c (or_introl eq_refl)). congruence.
Qed.

Lemma strip_nil (l : str) :
  strip l = [] <-> (forall c, In c l -> isspace c = true).
Proof.
  unfold strip, lstrip, rstrip. split.
  - intros H.
    assert (Hd : dropwhile isspace (rev (dropwhile isspace l)) = []).
    { apply (f_equal (@rev char)) in H. now rewrite rev_involutive in H. }
    destruct (dropwhile_suffix isspace l) as (a & Ha & Hws).
    rewrite dropwhile_nil in Hd.
    intros c Hc. rewrite Ha in Hc. apply in_app_or in Hc as [Hc|Hc].
    + rewrite Forall_forall in Hws. now apply Hws.
    + apply Hd. now apply in_rev in Hc.
  - intros H. apply (proj2 (dropwhile_nil isspace l)) in H. now rewrite H.
Qed.

(** A line is kept when it has a character that is no white space. *)
Lemma nonblank_spec (l : str) :
  nonblank l = true <-> exists c, In c l /\ isspace c = false.
Proof.
  unfold nonblank. split.
  - intros H. destruct (strip l) as [|c r] eqn:E; [discriminate|].
    exists c. split.
    + apply strip_In. rewrite E. now left.
    + unfold strip in E. destruct (rstrip_prefix (lstrip l)) as (b & Hb).
      rewrite E in Hb. unfold lstrip in Hb.
      eapply dropwhile_head. exact Hb.
  - intros (c & Hc & Hs). destruct (strip l) eqn:E; [|reflexivity].
    rewrite strip_nil in E. specialize (E c Hc). congruence.
Qed.

Lemma nonblank_replace_tab (l : str) :
  nonblank l = true -> nonblank (replace [TAB] [SP; SP] l) = true.
Proof.
  rewrite !nonblank_spec. intros (c & Hc & Hs). exists c. split; [|exact Hs].
  apply replace_tab_chars. right. split; [|exact Hc].
  intros ->. discriminate Hs.
Qed.

(** *** The lines of the sanitised text *)

Lemma sanitised_lines_spec (text l : str) :
  In l (sanitised_lines text) ->
  nonblank l = true /\ one_line l /\ ~ In HASH l /\ ~ In TAB l.
Proof.
  unfold sanitised_lines. rewrite in_map_iff.
  intros (l0 & <- & Hl0). apply filter_In in Hl0 as [Hl0 Hnb].
  apply splitlines_lines in Hl0 as [Hsub Hone].
  split; [now apply nonblank_replace_tab|]. split; [|split].
  - unfold one_line in *. rewrite Forall_forall in *. intros c Hc.
    apply replace_tab_chars in Hc as [[-> _]|[_ Hc]]; [reflexivity | auto].
  - intros Hc. apply replace_tab_chars in Hc as [[E _]|[_ Hc]]; [discriminate E|].
    apply (sub_comment_no_hash (replace fence [] (Re.sub opening_fence_re [] text))).
    apply strip_In. now apply Hsub.
  - intros Hc. apply replace_tab_chars in Hc as [[E _]|[Hn _]]; [discriminate E|].
    now apply Hn.
Qed.

Lemma join_chars (sep : str) (ls : list str) (c : char) :
  In c (join sep ls) -> In c sep \/ exists l, In l ls /\ In c l.
Proof.
  induction ls as [|p rest IH]; [intros []|].
  destruct rest as [|q rest].
  - intros H. right. exists p. split; [now left | exact H].
  - change (join sep (p :: q :: rest)) with (p ++ sep ++ join sep (q :: rest)).
    intros H. apply in_app_or in H as [H|H].
    + right. exists p. split; [now left | exact H].
    + apply in_app_or in H as [H|H]; [now left|].
      destruct (IH H) as [Hs|(l & Hl & Hc)]; [now left|].
      right. exists l. split; [now right | exact Hc].
Qed.

End SanitisedText.

Section SanitisedShape.

Lemma splitlines_from_one_line (l cur s : str) :
  one_line l -> splitlines_from cur (l ++ s) = splitlines_from (cur ++ l) s.
Proof.
  revert cur; induction l as [|c l IH]; intros cur H.
  - now rewrite app_nil_r.
  - inversion H as [|? ? Hc Hl]; subst. cbn [app splitlines_from].
    rewrite Hc, IH by exact Hl. now rewrite <- app_assoc.
Qed.

Lemma splitlines_from_LF (cur s : str) :
  splitlines_from cur (LF :: s) = cur :: splitlines s.
Proof. destruct s; reflexivity. Qed.

Lemma join_head (sep : str) (c : char) (l : str) (ls : list str) :
  join sep ((c :: l) :: ls) = c :: join sep (l :: ls).
Proof. destruct ls; reflexivity. Qed.

Lemma splitlines_from_join (ls : list str) (l cur : str) :
  one_line l -> Forall (fun x => x <> [] /\ one_line x) ls ->
  splitlines_from cur (join [LF] (l :: ls)) = (cur ++ l) :: ls.
Proof.
  revert l cur; induction ls as [|l' ls IH]; intros l cur Hl Hls.
  - cbn [join]. rewrite <- (app_nil_r l) at 1.
    now rewrite splitlines_from_one_line.
  - change (join [LF] (l :: l' :: ls)) with (l ++ LF :: join [LF] (l' :: ls)).
    rewrite splitlines_from_one_line by exact Hl.
    rewrite splitlines_from_LF. f_equal.
    inversion Hls as [|? ? [Hne Hone] Hrest]; subst.
    destruct l' as [|c l']; [congruence|].
    rewrite join_head. unfold splitlines. rewrite <- join_head.
    now rewrite IH.
Qed.

(** Lines that are not empty and hold no boundary are the lines of
    their join. *)
Lemma splitlines_join (ls : list str) :
  Forall (fun x => x <> [] /\ one_line x) ls -> splitlines (join [LF] ls) = ls.
Proof.
  destruct ls as [|l ls]; [reflexivity|]. intros H.
  inversion H as [|? ? [Hne Hone] Hrest]; subst.
  destruct l as [|c l]; [congruence|].
  rewrite join_head. unfold splitlines. rewrite <- join_head.
  now rewrite splitlines_from_join.
Qed.

Lemma splitlines_from_head (s cur : str) :
  exists x rest, splitlines_from cur s = (cur ++ x) :: rest.
Proof.
  revert cur; induction s as [|c s IH]; intros cur.
  - exists [], []. now rewrite app_nil_r.
  - cbn [splitlines_from]. destruct (islinebreak c).
    + exists []. rewrite app_nil_r. eauto.
    + destruct (IH (cur ++ [c])) as (x & rest & ->).
      exists (c :: x), rest. now rewrite <- app_assoc.
Qed.

Lemma splitlines_from_last (s cur a : str) (c' : char) :
  s = a ++ [c'] -> islinebreak c' = false ->
  exists ls x, splitlines_from cur s = ls ++ [x ++ [c']].
Proof.
  intros Hs Hc. revert cur a Hs; induction s as [|d s IH]; intros cur a Hs.
  - destruct a; discriminate.
  - destruct a as [|d' a].
    + simpl in Hs. injection Hs as Hd Hs'. subst d s.
      cbn [splitlines_from]. rewrite Hc. now exists [], cur.
    + simpl in Hs. injection Hs as Hd Hs. subst d'. cbn [splitlines_from].
      destruct (islinebreak d) eqn:Ed; [|now apply (IH _ a)].
      destruct (IH [] a Hs) as (ls & x & Hx).
      destruct s as [|e s']; [destruct a; discriminate|].
      destruct ((d =? CR)%N && (e =? LF)%N) eqn:Ecr.
      * apply andb_true_iff in Ecr as [_ Ee]. apply N.eqb_eq in Ee. subst e.
        rewrite splitlines_from_LF in Hx.
        destruct ls as [|l0 ls].
        { injection Hx as Hx _. destruct x; discriminate. }
        injection Hx as _ Hx.
        destruct s' as [|f s''].
        { destruct a as [|? [|? ?]]; try discriminate.
          injection Hs as <-. discriminate Hc. }
        unfold splitlines in Hx. exists (cur :: ls), x. now rewrite Hx.
      * exists (cur :: ls), x. now rewrite Hx.
Qed.

Lemma join_snoc (sep : str) (ls : list str) (z : str) :
  exists pre, join sep (ls ++ [z]) = pre ++ z.
Proof.
  induction ls as [|p ls (pre & IH)].
  - now exists [].
  - destruct ls as [|q ls].
    + exists (p ++ sep). cbn. now rewrite <- app_assoc.
    + exists (p ++ sep ++ pre).
      change (join sep ((p :: q :: ls) ++ [z]))
        with (p ++ sep ++ join sep ((q :: ls) ++ [z])).
      rewrite IH. now rewrite <- !app_assoc.
Qed.

(** A text that starts and ends with a character that is no white space
    is its own [strip]. *)
Lemma strip_id (s r a : str) (c c' : char) :
  s = c :: r -> isspace c = false ->
  s = a ++ [c'] -> isspace c' = false -> strip s = s.
Proof.
  intros Hs Hc Ha Hc'. unfold strip, lstrip, rstrip.
  assert (E : dropwhile isspace s = s) by (rewrite Hs; simpl; now rewrite Hc).
  rewrite E. rewrite Ha at 1. rewrite rev_app_distr. simpl. rewrite Hc'.
  change (c' :: rev a) with (rev [c'] ++ rev a).
  rewrite <- rev_app_distr, rev_involutive. now symmetry.
Qed.

Lemma strip_head (s r : str) (c : char) : strip s = c :: r -> isspace c = false.
Proof.
  unfold strip. intros H.
  destruct (rstrip_prefix (lstrip s)) as (b & Hb). rewrite H in Hb.
  eapply dropwhile_head. exact Hb.
Qed.

Lemma nonempty_last (s : str) : s <> [] -> exists a c, s = a ++ [c].
Proof.
  intros H. destruct (exists_last H) as (a & c & ->). eauto.
Qed.

Lemma expand_tab_not_space (c : char) : isspace c = false -> expand_tab c = [c].
Proof.
  intros H. unfold expand_tab. destruct (TAB =? c)%N eqn:E; [|reflexivity].
  apply N.eqb_eq in E. subst c. discriminate H.
Qed.

(** The join of the kept lines of a stripped text starts and ends as
    the stripped text does. *)
Lemma sanitised_join_strip (u : str) :
  strip u = u ->
  strip (join [LF] (map (replace [TAB] [SP; SP])
                        (filter nonblank (splitlines u))))
  = join [LF] (map (replace [TAB] [SP; SP]) (filter nonblank (splitlines u))).
Proof.
  intros Hu. destruct u as [|c r] eqn:Eu; [reflexivity|]. rewrite <- Eu in *.
  assert (Hc : isspace c = false)
    by (eapply strip_head; rewrite Hu; exact Eu).
  destruct (@nonempty_last u) as (a & c' & Ha); [rewrite Eu; discriminate|].
  assert (Hc' : isspace c' = false)
    by (eapply rstrip_last; unfold strip in Hu; rewrite Hu; exact Ha).
  (* the first line *)
  assert (Hfirst : exists y L,
    map (replace [TAB] [SP; SP]) (filter nonblank (splitlines u)) = (c :: y) :: L).
  { rewrite Eu. unfold splitlines. cbn [splitlines_from].
    rewrite (not_space_not_linebreak _ Hc).
    destruct (splitlines_from_head r ([] ++ [c])) as (x & rest & ->).
    cbn [app filter].
    assert (Hnb : nonblank (c :: x) = true)
      by (apply nonblank_spec; exists c; split; [now left | exact Hc]).
    rewrite Hnb. cbn [map]. rewrite replace_tab_flat_map. cbn [flat_map].
    rewrite expand_tab_not_space by exact Hc. cbn [app]. eauto. }
  (* the last line *)
  assert (Hlast : exists L z,
    map (replace [TAB] [SP; SP]) (filter nonblank (splitlines u)) = L ++ [z ++ [c']]).
  { assert (Hsp : exists ls x, splitlines u = ls ++ [x ++ [c']]).
    { rewrite Eu. unfold splitlines. rewrite <- Eu.
      eapply splitlines_from_last; [exact Ha|].
      now apply not_space_not_linebreak. }
    destruct Hsp as (ls & x & ->).
    rewrite filter_app. cbn [filter].
    assert (Hnb : nonblank (x ++ [c']) = true).
    { apply nonblank_spec. exists c'. split; [|exact Hc'].
      apply in_or_app. right. now left. }
    rewrite Hnb, map_app. cbn [map].
    rewrite (replace_tab_flat_map (x ++ [c'])), flat_map_app. cbn [flat_map].
    rewrite expand_tab_not_space by exact Hc'. rewrite app_nil_r. eauto. }
  destruct Hfirst as (y & L & Hf). destruct Hlast as (L' & z & Hl).
  destruct (join_snoc [LF] L' (z ++ [c'])) as (pre & Hj).
  eapply strip_id with (c := c) (c' := c') (a := pre ++ z).
  - rewrite Hf. apply join_head.
  - exact Hc.
  - rewrite Hl. etransitivity; [exact Hj | apply app_assoc].
  - exact Hc'.
Qed.

Lemma strip_strip (s : str) : strip (strip s) = strip s.
Proof.
  destruct (strip s) as [|c r] eqn:E; [reflexivity|].
  destruct (@nonempty_last (c :: r)) as (a & c' & Ha); [discriminate|].
  eapply strip_id; [reflexivity | | exact Ha | ].
  - eapply strip_head; exact E.
  - eapply rstrip_last. unfold strip in E. rewrite E. exact Ha.
Qed.

End SanitisedShape.

Section SanitiserMore.

Lemma clean_response_chars (text : str) (c : char) :
  In c (ICLAgent._clean_response text) ->
  c = LF \/ exists l, In l (sanitised_lines text) /\ In c l.
Proof.
  destruct text as [|c0 t0]; [intros []|].
  rewrite clean_response_lines by discriminate.
  intros H. apply join_chars in H as [[<-|[]]|H]; [now left | now right].
Qed.

Lemma sanitised_lines_splitlines (text : str) :
  splitlines (join [LF] (sanitised_lines text)) = sanitised_lines text.
Proof.
  apply splitlines_join. rewrite Forall_forall. intros l Hl.
  apply sanitised_lines_spec in Hl as (Hnb & Hone & _ & _).
  split; [|exact Hone]. intros ->. discriminate Hnb.
Qed.

Lemma sanitised_stripped (text : str) :
  strip (ICLAgent._clean_response text) = ICLAgent._clean_response text.
Proof.
  destruct text as [|c0 t0]; [reflexivity|].
  rewrite clean_response_lines by discriminate.
  unfold sanitised_lines. apply sanitised_join_strip, strip_strip.
Qed.

(** The sanitised text is a text on which sanitising only strips. *)
Lemma sanitised_plain (text : str) : plain_text (ICLAgent._clean_response text).
Proof.
  constructor.
  - apply fence_free_sound, clean_response_fence_free.
  - intros H. apply clean_response_chars in H as [E|(l & Hl & Hc)];
      [discriminate E|].
    now apply sanitised_lines_spec in Hl as (_ & _ & Hh & _).
  - intros H. apply clean_response_chars in H as [E|(l & Hl & Hc)];
      [discriminate E|].
    now apply sanitised_lines_spec in Hl as (_ & _ & _ & Ht).
  - intros c H Hlb. apply clean_response_chars in H as [E|(l & Hl & Hc)];
      [exact E|].
    apply sanitised_lines_spec in Hl as (_ & Hone & _ & _).
    unfold one_line in Hone. rewrite Forall_forall in Hone.
    specialize (Hone c Hc). congruence.
  - rewrite sanitised_stripped.
    destruct text as [|c0 t0]; [constructor|].
    rewrite clean_response_lines by discriminate.
    rewrite sanitised_lines_splitlines. rewrite Forall_forall. intros l Hl.
    now apply sanitised_lines_spec in Hl as (Hnb & _).
Qed.

(** X1.  The sanitised text has no '#': every comment marker is removed
    together with what follows it on its line. *)
Theorem clean_response_no_hash (text : str) :
  ~ In HASH (ICLAgent._clean_response text).
Proof.
  intros H. apply clean_response_chars in H as [E|(l & Hl & Hc)];
    [discriminate E|].
  now apply sanitised_lines_spec in Hl as (_ & _ & Hh & _).
Qed.

(** X2.  The sanitised text has no tab, and its only line boundary is
    "\n": carriage returns, form feeds and the other boundaries
    [splitlines] knows are gone. *)
Theorem clean_response_no_tab_only_lf (text : str) :
  ~ In TAB (ICLAgent._clean_response text) /\
  forall c, In c (ICLAgent._clean_response text) ->
            islinebreak c = true -> c = LF.
Proof.
  split.
  - intros H. apply clean_response_chars in H as [E|(l & Hl & Hc)];
      [discriminate E|].
    now apply sanitised_lines_spec in Hl as (_ & _ & _ & Ht).
  - intros c H Hlb. apply clean_response_chars in H as [E|(l & Hl & Hc)];
      [exact E|].
    apply sanitised_lines_spec in Hl as (_ & Hone & _ & _).
    unfold one_line in Hone. rewrite Forall_forall in Hone.
    specialize (Hone c Hc). congruence.
Qed.

Lemma clean_response_no_tab_only_lf_witness :
  ~ In CR (ICLAgent._clean_response (py "a: 1" ++ [CR; LF; TAB] ++ py "b: 2")).
Proof.
  intros H.
  pose proof (proj2 (@clean_response_no_tab_only_lf
                       (py "a: 1" ++ [CR; LF; TAB] ++ py "b: 2")) CR H eq_refl)
    as E.
  discriminate E.
Defined.

(** X3.  The sanitised text neither starts nor ends with white space:
    stripping it changes nothing. *)
Theorem clean_response_stripped (text : str) :
  strip (ICLAgent._clean_response text) = ICLAgent._clean_response text.
Proof. apply sanitised_stripped. Qed.

(** X4.  The sanitised text has no blank line: each of its lines has a
    character that is no white space. *)
Theorem clean_response_no_blank_line (text : str) :
  Forall (fun line => exists c, In c line /\ isspace c = false)
         (splitlines (ICLAgent._clean_response text)).
Proof.
  destruct text as [|c0 t0]; [constructor|].
  rewrite clean_response_lines by discriminate.
  rewrite sanitised_lines_splitlines. rewrite Forall_forall. intros l Hl.
  apply nonblank_spec. now apply sanitised_lines_spec in Hl as (Hnb & _).
Qed.

(** X5.  Sanitising is idempotent: a text that went through
    [_clean_response] goes through it again unchanged. *)
Theorem clean_response_idempotent (text : str) :
  ICLAgent._clean_response (ICLAgent._clean_response text)
  = ICLAgent._clean_response text.
Proof.
  rewrite clean_response_plain by apply sanitised_plain.
  apply sanitised_stripped.
Qed.

End SanitiserMore.

(* ================================================================== *)
(** ** Which part of the state an operation touches *)
(* ================================================================== *)

Section Frames.
Variable R : state -> state -> Prop.
Hypothesis R_refl : forall st, R st st.
Hypothesis R_trans : forall a b c, R a b -> R b c -> R a c.

Lemma respects_ret (A : Type) (a : A) : respects R (ret a).
Proof. intros st r st' [= _ <-]. apply R_refl. Qed.

Lemma respects_raise (A : Type) (e : exn) : respects R (@raise A e).
Proof. intros st r st' [= _ <-]. apply R_refl. Qed.

Lemma respects_lift (A : Type) (o : outcome A) : respects R (lift o).
Proof. intros st r st' [= _ <-]. apply R_refl. Qed.

Lemma respects_bind (A B : Type) (c : M A) (k : A -> M B) :
  respects R c -> (forall a, respects R (k a)) -> respects R (bind c k).
Proof.
  intros Hc Hk st r st'. unfold bind.
  destruct (c st) as [[a|e] st1] eqn:E.
  - intros H. eapply R_trans; [eapply Hc; eauto | eapply Hk; eauto].
  - intros [= _ <-]. eapply Hc; eauto.
Qed.

Lemma respects_try (A : Type) (body : M A) (h : exn -> option (M A)) :
  respects R body ->
  (forall e handler, h e = Some handler -> respects R handler) ->
  respects R (try_except body h).
Proof.
  intros Hb Hh st r st'. unfold try_except.
  destruct (body st) as [[a|e] st1] eqn:E.
  - intros [= _ <-]. eapply Hb; eauto.
  - destruct (h e) as [handler|] eqn:Eh.
    + intros H. eapply R_trans; [eapply Hb; eauto | eapply Hh; eauto].
    + intros [= _ <-]. eapply Hb; eauto.
Qed.

Lemma respects_if (A : Type) (b : bool) (c1 c2 : M A) :
  respects R c1 -> respects R c2 -> respects R (if b then c1 else c2).
Proof. now destruct b. Qed.

End Frames.

Section Quiet.

Lemma quiet_refl (st : state) : quiet st st.
Proof. now split. Qed.

Lemma quiet_trans (a b c : state) : quiet a b -> quiet b c -> quiet a c.
Proof. intros [H1 H2] [H3 H4]. split; congruence. Qed.

Lemma quiet_print (line : str) : respects quiet (print line).
Proof. intros st r st' [= _ <-]. now split. Qed.

Lemma quiet_st_error (message : str) : respects quiet (st_error message).
Proof. intros st r st' [= _ <-]. now split. Qed.

Lemma quiet_log (message type : str) : respects quiet (ICLAgent.log message type).
Proof. apply quiet_print. Qed.

Lemma quiet_now (w : World) : respects quiet (now w).
Proof. intros st r st' [= _ <-]. now split. Qed.

Lemma log_run (message type : str) (st : state) :
  ICLAgent.log message type st = (Return tt, printed (log_line message type) st).
Proof. reflexivity. Qed.

(** Neither parser calls the model or writes a file. *)
Lemma quiet_parse (w : World) (content : str) :
  respects quiet (ICLAgent._parse_yaml_safely w content).
Proof.
  unfold ICLAgent._parse_yaml_safely.
  apply respects_try; try apply quiet_refl; try apply quiet_trans.
  - apply respects_bind; try apply quiet_refl; try apply quiet_trans.
    + apply respects_lift, quiet_refl.
    + intros [|d [|d' ds]];
        [apply respects_raise | apply respects_ret | apply respects_ret];
        apply quiet_refl.
  - unfold except_YAMLError. intros e handler.
    destruct (isinstance_YAMLError e); [|discriminate]. intros [= <-].
    apply respects_bind; try apply quiet_refl; try apply quiet_trans.
    + apply quiet_log.
    + intros _. apply respects_bind; try apply quiet_refl; try apply quiet_trans.
      * apply quiet_now.
      * intros t. apply respects_ret, quiet_refl.
Qed.

Lemma quiet_streamlit_parse (w : World) (content : str) :
  respects quiet (StreamlitICLAgent._parse_yaml_safely w content).
Proof.
  unfold StreamlitICLAgent._parse_yaml_safely.
  apply respects_try; try apply quiet_refl; try apply quiet_trans.
  - apply respects_bind; try apply quiet_refl; try apply quiet_trans.
    + apply respects_lift, quiet_refl.
    + intros [|d [|d' ds]];
        [apply respects_raise | apply respects_ret | apply respects_ret];
        apply quiet_refl.
  - unfold except_YAMLError. intros e handler.
    destruct (isinstance_YAMLError e); [|discriminate]. intros [= <-].
    apply respects_bind; try apply quiet_refl; try apply quiet_trans.
    + apply quiet_st_error.
    + intros _. apply respects_bind; try apply quiet_refl; try apply quiet_trans.
      * apply quiet_now.
      * intros t. apply respects_ret, quiet_refl.
Qed.

End Quiet.

(* ================================================================== *)
(** ** More on the parser and on saving *)
(* ================================================================== *)

Section ParserMore.

(** X6.  An exception of the loader that is no YAML error is not the
    parser's to handle: it leaves [_parse_yaml_safely] as it is, nothing
    is printed and the clock is not read. *)
Theorem parse_foreign_exception (w : World) (content : str) (st : state)
    (e : exn) :
  yaml_safe_load_all w content = Raise e ->
  isinstance_YAMLError e = false ->
  ICLAgent._parse_yaml_safely w content st = (Raise e, st) /\
  StreamlitICLAgent._parse_yaml_safely w content st = (Raise e, st).
Proof.
  intros H He. split; [now apply parse_other_error|].
  unfold StreamlitICLAgent._parse_yaml_safely, try_except, bind, lift,
         except_YAMLError.
  rewrite H, He. reflexivity.
Qed.

Lemma parse_foreign_exception_witness :
  ICLAgent._parse_yaml_safely (Fixture.world (Return []) true (Return tt))
    (py "not in the table") Fixture.st0
  = (Raise (mk_exn (OtherException (py "LookupError"))
                   (py "text outside the table")), Fixture.st0).
Proof.
  apply (proj1 (@parse_foreign_exception
                  (Fixture.world (Return []) true (Return tt))
                  (py "not in the table") Fixture.st0
                  (mk_exn (OtherException (py "LookupError"))
                          (py "text outside the table"))
                  eq_refl eq_refl)).
Defined.

Lemma occurs_fence_backtick (s : str) : occurs fence s -> In BT s.
Proof.
  intros (a & b & ->). apply in_or_app. right. now left.
Qed.

Lemma clean_blank (text : str) :
  (forall c, In c text -> isspace c = true) ->
  ICLAgent._clean_response text = [].
Proof.
  intros H. unfold ICLAgent._clean_response.
  destruct (negb (truthy text)); [reflexivity|].
  assert (Hf : ~ occurs fence text).
  { intros Ho. apply occurs_fence_backtick in Ho. apply H in Ho. discriminate Ho. }
  assert (Hh : ~ In HASH text) by (intros Hc; apply H in Hc; discriminate Hc).
  rewrite sub_opening_fence_id by exact Hf.
  rewrite replace_fence_id by exact Hf.
  rewrite sub_comment_id by exact Hh.
  now rewrite (proj2 (strip_nil text) H).
Qed.

(** X7.  A text of white space only is sanitised to the empty text. *)
Theorem clean_response_blank (text : str) :
  (forall c, In c text -> isspace c = true) ->
  ICLAgent._clean_response text = [].
Proof. apply clean_blank. Qed.

Lemma clean_response_blank_witness :
  ICLAgent._clean_response [SP; LF; TAB; CR; LF] = [].
Proof.
  apply (@clean_response_blank [SP; LF; TAB; CR; LF]).
  intros c H. cbv in H.
  repeat (destruct H as [H|H]; [subst c; reflexivity|]). contradiction.
Defined.

End ParserMore.

Section Saving.
Variable w : World.

Lemma save_yaml_run (self : ICLAgent.agent) (data : value) (name : option str)
    (st : state) :
  let path := save_path w self name (datetime_now w (ticks st)) in
  let content := yaml_dump w ICLAgent.save_opts data in
  ICLAgent._save_yaml w self data name st =
  match open_write w path content with
  | Return _ =>
      (Return path,
       printed (log_line (py "Configuration saved to " ++ path) (py "success"))
               (saved path content (ticked st)))
  | Raise e =>
      (Raise e, printed (error_line (py "Error saving YAML: " ++ exn_msg e))
                        (ticked st))
  end.
Proof.
  cbn zeta.
  unfold ICLAgent._save_yaml, try_except, bind, now, write_file, save_path,
         save_stem.
  destruct name as [[|c n]|];
    try (change (py "config_") with (py "config" ++ py "_");
         rewrite <- (app_assoc (py "config") (py "_")));
    match goal with
    | |- context [open_write w ?p ?c] => destruct (open_write w p c)
    end; reflexivity.
Qed.

End Saving.

Section SavingMore.

(** X8.  When the file can be written, [_save_yaml] reads the clock
    once, writes exactly one file, named
    <output_dir>/<name>_<timestamp>.yaml ("config" standing for a
    missing or empty name) and holding the serialised data, prints the
    confirmation and returns the path of that file. *)
Theorem save_yaml_success (w : World) (self : ICLAgent.agent) (data : value)
    (name : option str) (st : state) :
  open_write w (save_path w self name (datetime_now w (ticks st)))
             (yaml_dump w ICLAgent.save_opts data) = Return tt ->
  ICLAgent._save_yaml w self data name st =
  (Return (save_path w self name (datetime_now w (ticks st))),
   printed (log_line (py "Configuration saved to "
                      ++ save_path w self name (datetime_now w (ticks st)))
                     (py "success"))
           (saved (save_path w self name (datetime_now w (ticks st)))
                  (yaml_dump w ICLAgent.save_opts data) (ticked st))).
Proof. intros H. rewrite save_yaml_run. cbn zeta. now rewrite H. Qed.

Lemma save_yaml_success_witness :
  fst (ICLAgent._save_yaml (Fixture.world (Return []) true (Return tt))
         Fixture.icl_self Fixture.cache_doc None Fixture.st0)
  = Return (py "configs/config_20250101_120000.yaml").
Proof.
  rewrite (@save_yaml_success (Fixture.world (Return []) true (Return tt))
             Fixture.icl_self Fixture.cache_doc None Fixture.st0 eq_refl).
  reflexivity.
Defined.

(** X9.  When the file cannot be written, [_save_yaml] prints the error
    and raises the same exception again; no file is recorded. *)
Theorem save_yaml_failure (w : World) (self : ICLAgent.agent) (data : value)
    (name : option str) (st : state) (e : exn) :
  open_write w (save_path w self name (datetime_now w (ticks st)))
             (yaml_dump w ICLAgent.save_opts data) = Raise e ->
  ICLAgent._save_yaml w self data name st =
  (Raise e, printed (error_line (py "Error saving YAML: " ++ exn_msg e))
                    (ticked st)) /\
  files (snd (ICLAgent._save_yaml w self data name st)) = files st.
Proof.
  intros H. rewrite save_yaml_run. cbn zeta. rewrite H. now split.
Qed.

Lemma save_yaml_failure_witness :
  fst (ICLAgent._save_yaml
         (Fixture.world (Return []) true (Raise Fixture.disk_error))
         Fixture.icl_self Fixture.cache_doc (Some (py "icl_config")) Fixture.st0)
  = Raise Fixture.disk_error.
Proof.
  rewrite (proj1 (@save_yaml_failure
                    (Fixture.world (Return []) true (Raise Fixture.disk_error))
                    Fixture.icl_self Fixture.cache_doc (Some (py "icl_config"))
                    Fixture.st0 Fixture.disk_error eq_refl)).
  reflexivity.
Defined.

End SavingMore.

(* ================================================================== *)
(** ** More on loading the knowledge base *)
(* ================================================================== *)

Section LoadingRuns.
Variable w : World.

Lemma model_generate_run (parts : list str) (st : state) :
  model_generate w parts st = (generate_content w (calls st) parts, called st).
Proof. reflexivity. Qed.

Lemma calls_printed (line : str) (st : state) : calls (printed line st) = calls st.
Proof. reflexivity. Qed.

(** The [try] block of [_load_knowledge], path by path. *)
Lemma load_knowledge_try_run (self : ICLAgent.agent) (st : state) :
  ICLAgent._load_knowledge_try w self st =
  let st1 := printed (log_line (py "Reading documentation...") (py "think")) st in
  if negb (path_exists w (ICLAgent.doc_path self)) then
    (Raise (mk_exn FileNotFoundError
              (py "Documentation file not found: " ++ ICLAgent.doc_path self)), st1)
  else
    match pdf_pages w (ICLAgent.doc_path self) with
    | Raise e => (Raise e, st1)
    | Return pages =>
        let st2 := printed (log_line (py "Extracting key information...")
                                     (py "think")) st1 in
        match generate_content w (calls st)
                [ICLAgent.knowledge_prompt; join [LF] (filter truthy pages)] with
        | Raise e => (Raise e, called st2)
        | Return text =>
            match ICLAgent._parse_yaml_safely w (ICLAgent._clean_response text)
                    (called st2) with
            | (Raise e, st3) => (Raise e, st3)
            | (Return k, st3) =>
                if negb (isinstance_dict k) || negb (value_truthy k)
                then (Raise invalid_knowledge, st3)
                else (Return (ICLAgent.set_knowledge self k),
                      printed (log_line (py "Documentation processed successfully")
                                        (py "success")) st3)
            end
        end
    end.
Proof.
  cbn zeta. unfold ICLAgent._load_knowledge_try.
  unfold bind at 1. rewrite log_run.
  unfold bind at 1.
  destruct (negb (path_exists w (ICLAgent.doc_path self))); [reflexivity|].
  cbn [ret]. unfold bind at 1. unfold lift at 1.
  destruct (pdf_pages w (ICLAgent.doc_path self)) as [pages|e]; [|reflexivity].
  unfold bind at 1. rewrite log_run.
  unfold bind at 1. rewrite model_generate_run, !calls_printed.
  destruct (generate_content w (calls st) _) as [text|e]; [|reflexivity].
  unfold bind at 1.
  match goal with
  | |- context [ICLAgent._parse_yaml_safely w ?c ?s] =>
      destruct (ICLAgent._parse_yaml_safely w c s) as [[k|e] st3]
  end; [|reflexivity].
  unfold bind at 1.
  destruct (negb (isinstance_dict k) || negb (value_truthy k)); reflexivity.
Qed.

(** [_load_knowledge] after a failure of its [try] block. *)
Lemma load_knowledge_fallback (self : ICLAgent.agent) (st st1 : state) (e : exn) :
  ICLAgent._load_knowledge_try w self st = (Raise e, st1) ->
  ICLAgent._load_knowledge w self st =
  (Return (ICLAgent.set_knowledge self default_knowledge),
   printed (error_line (py "Error loading documentation: " ++ exn_msg e)) st1).
Proof.
  intros H. unfold ICLAgent._load_knowledge.
  erewrite try_Raise by exact H. reflexivity.
Qed.

(** What loading does to the state: no file, at most one remote call. *)
Lemma load_knowledge_effects (self : ICLAgent.agent) (st : state) :
  exists a st',
    ICLAgent._load_knowledge w self st = (Return a, st') /\
    ICLAgent.doc_path a = ICLAgent.doc_path self /\
    ICLAgent.output_dir a = ICLAgent.output_dir self /\
    files st' = files st /\
    (calls st' = calls st \/ calls st' = S (calls st)).
Proof.
  destruct (ICLAgent._load_knowledge_try w self st) as [[a|e] st1] eqn:E.
  - exists a, st1. split; [unfold ICLAgent._load_knowledge; now apply try_Return|].
    rewrite load_knowledge_try_run in E. cbn zeta in E.
    destruct (negb (path_exists w (ICLAgent.doc_path self))); [discriminate|].
    destruct (pdf_pages w (ICLAgent.doc_path self)); [|discriminate].
    destruct (generate_content w (calls st) _); [|discriminate].
    match type of E with
    | context [ICLAgent._parse_yaml_safely w ?c ?s] =>
        destruct (ICLAgent._parse_yaml_safely w c s) as [[k|e] st3] eqn:Ep
    end; [|discriminate].
    apply quiet_parse in Ep as [Hc Hf].
    destruct (negb (isinstance_dict k) || negb (value_truthy k)); [discriminate|].
    injection E as <- <-. cbn. repeat split; auto.
  - eexists _, _. split; [eapply load_knowledge_fallback; exact E|].
    cbn [ICLAgent.set_knowledge ICLAgent.doc_path ICLAgent.output_dir].
    split; [reflexivity|]. split; [reflexivity|].
    rewrite load_knowledge_try_run in E. cbn zeta in E.
    destruct (negb (path_exists w (ICLAgent.doc_path self)));
      [injection E as _ <-; cbn; auto|].
    destruct (pdf_pages w (ICLAgent.doc_path self));
      [|injection E as _ <-; cbn; auto].
    destruct (generate_content w (calls st) _);
      [|injection E as _ <-; cbn; auto].
    match type of E with
    | context [ICLAgent._parse_yaml_safely w ?c ?s] =>
        destruct (ICLAgent._parse_yaml_safely w c s) as [[k|e'] st3] eqn:Ep
    end.
    + apply quiet_parse in Ep as [Hc Hf].
      destruct (negb (isinstance_dict k) || negb (value_truthy k));
        [|discriminate].
      injection E as _ <-. cbn. auto.
    + apply quiet_parse in Ep as [Hc Hf]. injection E as _ <-. cbn. auto.
Qed.

End LoadingRuns.

Section LoadingMore.

(** X10.  When the reference document does not exist, loading stores
    the default knowledge base, pointing at the missing file in the
    error it prints, and the remote model is not called. *)
Theorem load_knowledge_without_document (w : World) (self : ICLAgent.agent)
    (st : state) :
  path_exists w (ICLAgent.doc_path self) = false ->
  ICLAgent._load_knowledge w self st =
  (Return (ICLAgent.set_knowledge self default_knowledge),
   printed (error_line (py "Error loading documentation: "
                        ++ py "Documentation file not found: "
                        ++ ICLAgent.doc_path self))
           (printed (log_line (py "Reading documentation...") (py "think")) st)) /\
  calls (snd (ICLAgent._load_knowledge w self st)) = calls st.
Proof.
  intros H.
  assert (E : ICLAgent._load_knowledge_try w self st =
              (Raise (mk_exn FileNotFoundError
                        (py "Documentation file not found: "
                         ++ ICLAgent.doc_path self)),
               printed (log_line (py "Reading documentation...") (py "think")) st)).
  { rewrite load_knowledge_try_run. cbn zeta. now rewrite H. }
  rewrite (@load_knowledge_fallback w self st _ _ E). now split.
Qed.

Lemma load_knowledge_without_document_witness :
  fst (ICLAgent._load_knowledge (Fixture.world (Return []) false (Return tt))
         Fixture.icl_self Fixture.st0)
  = Return (ICLAgent.set_knowledge Fixture.icl_self default_knowledge).
Proof.
  rewrite (proj1 (@load_knowledge_without_document
                    (Fixture.world (Return []) false (Return tt))
                    Fixture.icl_self Fixture.st0 eq_refl)).
  reflexivity.
Defined.

(** X11.  With the reference document in place, loading still ends with
    the default knowledge base when the PDF cannot be read (and then
    without a remote call), when the remote call fails, when the
    sanitised answer holds no document, when the loader fails with
    anything but a YAML error, and when the one document of the answer
    is no mapping or is an empty one. *)
Theorem load_knowledge_falls_back (w : World) (self : ICLAgent.agent)
    (st : state) :
  path_exists w (ICLAgent.doc_path self) = true ->
  let fallen := Return (ICLAgent.set_knowledge self default_knowledge) in
  let run := ICLAgent._load_knowledge w self st in
  (forall e, pdf_pages w (ICLAgent.doc_path self) = Raise e ->
     fst run = fallen /\ calls (snd run) = calls st) /\
  (forall pages, pdf_pages w (ICLAgent.doc_path self) = Return pages ->
     let parts := [ICLAgent.knowledge_prompt; join [LF] (filter truthy pages)] in
     (forall e, generate_content w (calls st) parts = Raise e -> fst run = fallen) /\
     (forall text, generate_content w (calls st) parts = Return text ->
        let content := ICLAgent._clean_response text in
        (yaml_safe_load_all w content = Return [] -> fst run = fallen) /\
        (forall e, yaml_safe_load_all w content = Raise e ->
                   isinstance_YAMLError e = false -> fst run = fallen) /\
        (forall d, yaml_safe_load_all w content = Return [d] ->
                   isinstance_dict d && value_truthy d = false ->
                   fst run = fallen))).
Proof.
  intros Hex fallen run.
  assert (Hfall : forall e st1,
            ICLAgent._load_knowledge_try w self st = (Raise e, st1) ->
            fst run = fallen).
  { intros e st1 E. unfold run. now rewrite (@load_knowledge_fallback w self st _ _ E). }
  pose proof (load_knowledge_try_run w self st) as Hrun. cbn zeta in Hrun.
  rewrite Hex in Hrun. cbn [negb] in Hrun.
  split.
  - intros e He. rewrite He in Hrun. split; [eapply Hfall; eauto|].
    unfold run. now rewrite (@load_knowledge_fallback w self st _ _ Hrun).
  - intros pages Hp parts. rewrite Hp in Hrun. fold parts in Hrun. split.
    + intros e Hg. rewrite Hg in Hrun. eapply Hfall; eauto.
    + intros text Hg content. rewrite Hg in Hrun. fold content in Hrun.
      split; [|split].
      * intros Hl. rewrite (@parse_no_document w _ _ Hl) in Hrun.
        eapply Hfall; eauto.
      * intros e Hl He. rewrite (@parse_other_error w _ _ _ Hl He) in Hrun.
        eapply Hfall; eauto.
      * intros d Hl Hd. rewrite (@parse_one_document w _ _ _ Hl) in Hrun.
        assert (Hv : negb (isinstance_dict d) || negb (value_truthy d) = true).
        { destruct (isinstance_dict d), (value_truthy d);
            try reflexivity; discriminate Hd. }
        rewrite Hv in Hrun. eapply Hfall; eauto.
Qed.

Lemma load_knowledge_falls_back_witness :
  fst (ICLAgent._load_knowledge
         (Fixture.world (Raise Fixture.transport_error) true (Return tt))
         Fixture.icl_self Fixture.st0)
  = Return (ICLAgent.set_knowledge Fixture.icl_self default_knowledge).
Proof.
  apply (proj1 (proj2 (@load_knowledge_falls_back
                         (Fixture.world (Raise Fixture.transport_error) true
                            (Return tt))
                         Fixture.icl_self Fixture.st0 eq_refl)
                 [py "ICL reference, page 1"] eq_refl)
           Fixture.transport_error eq_refl).
Defined.

(** X12.  [_load_knowledge] never raises: it returns the agent with the
    same two paths, having written no file and called the remote model
    once at most. *)
Theorem load_knowledge_returns (w : World) (self : ICLAgent.agent) (st : state) :
  exists a st',
    ICLAgent._load_knowledge w self st = (Return a, st') /\
    ICLAgent.doc_path a = ICLAgent.doc_path self /\
    ICLAgent.output_dir a = ICLAgent.output_dir self /\
    files st' = files st /\
    (calls st' = calls st \/ calls st' = S (calls st)).
Proof. apply load_knowledge_effects. Qed.

Lemma init_run (w : World) (doc_path api_key output_dir : str) (st : state) :
  match makedirs w output_dir with
  | Raise e =>
      ICLAgent.__init__ w doc_path api_key output_dir st = (Raise e, st)
  | Return _ =>
      exists a st',
        ICLAgent.__init__ w doc_path api_key output_dir st = (Return a, st') /\
        ICLAgent.doc_path a = doc_path /\ ICLAgent.output_dir a = output_dir /\
        files st' = files st /\
        (calls st' = calls st \/ calls st' = S (calls st))
  end.
Proof.
  unfold ICLAgent.__init__, bind, lift.
  destruct (makedirs w output_dir) as [u|e]; [|reflexivity].
  rewrite log_run.
  destruct (load_knowledge_effects w
              (ICLAgent.mk_agent doc_path output_dir (VDict []))
              (printed (log_line (py "Initializing and loading documentation...")
                                 (py "info")) st))
    as (a & st' & Hrun & Hd & Ho & Hf & Hc).
  exists a, st'. rewrite Hrun. auto.
Qed.


End LoadingMore.

(* ================================================================== *)
(** ** More on the two operations *)
(* ================================================================== *)

Section Pipeline.
Variable w : World.

(** Generate, sanitise, parse, save: the body both operations share. *)
Lemma pipeline_run (self : ICLAgent.agent) (message prompt name : str)
    (st : state) :
  (ICLAgent.log message (py "think") ;;
   text <- model_generate w [prompt] ;;
   config <- ICLAgent._parse_yaml_safely w (ICLAgent._clean_response text) ;;
   filepath <- ICLAgent._save_yaml w self config (Some name) ;;
   ret (config, filepath)) st =
  let st1 := printed (log_line message (py "think")) st in
  match generate_content w (calls st) [prompt] with
  | Raise e => (Raise e, called st1)
  | Return text =>
      match ICLAgent._parse_yaml_safely w (ICLAgent._clean_response text)
              (called st1) with
      | (Raise e, st2) => (Raise e, st2)
      | (Return config, st2) =>
          match ICLAgent._save_yaml w self config (Some name) st2 with
          | (Raise e, st3) => (Raise e, st3)
          | (Return filepath, st3) => (Return (config, filepath), st3)
          end
      end
  end.
Proof.
  cbn zeta. unfold bind at 1. rewrite log_run.
  unfold bind at 1. rewrite model_generate_run, calls_printed.
  destruct (generate_content w (calls st) [prompt]) as [text|e]; [|reflexivity].
  unfold bind at 1.
  match goal with
  | |- context [ICLAgent._parse_yaml_safely w ?c ?s] =>
      destruct (ICLAgent._parse_yaml_safely w c s) as [[config|e] st2]
  end; [|reflexivity].
  unfold bind at 1.
  destruct (ICLAgent._save_yaml w self config (Some name) st2) as [[p|e] st3];
    reflexivity.
Qed.

(** What a returning run of the shared body has done. *)
Lemma pipeline_Return (self : ICLAgent.agent) (message prompt name : str)
    (st st' : state) (config : value) (filepath : str) :
  (ICLAgent.log message (py "think") ;;
   text <- model_generate w [prompt] ;;
   config <- ICLAgent._parse_yaml_safely w (ICLAgent._clean_response text) ;;
   filepath <- ICLAgent._save_yaml w self config (Some name) ;;
   ret (config, filepath)) st = (Return (config, filepath), st') ->
  files st' = (filepath, yaml_dump w ICLAgent.save_opts config) :: files st /\
  calls st' = S (calls st) /\
  exists t, filepath = save_path w self (Some name) t.
Proof.
  rewrite pipeline_run. cbn zeta.
  destruct (generate_content w (calls st) [prompt]) as [text|e]; [|discriminate].
  match goal with
  | |- context [ICLAgent._parse_yaml_safely w ?c ?s] =>
      destruct (ICLAgent._parse_yaml_safely w c s) as [[k|e] st2] eqn:Ep
  end; [|discriminate].
  apply quiet_parse in Ep as [Hc Hf].
  rewrite save_yaml_run. cbn zeta.
  match goal with
  | |- context [open_write w ?p ?c] => destruct (open_write w p c)
  end; [|discriminate].
  intros [= <- <- <-]. cbn. rewrite Hc, Hf. cbn. repeat split. eauto.
Qed.

End Pipeline.

Section OperationsMore.

(** X14.  When [process_request] or [update_configuration] returns
    (config, path), exactly one file has been written, at that path,
    named <output_dir>/icl_config_<timestamp>.yaml (icl_config_updated
    for an update) and holding the serialisation of the very
    configuration returned; and the remote model was called once. *)
Theorem operations_save_what_they_return (w : World) (self : ICLAgent.agent)
    (st st' : state) (config : value) (filepath : str) :
  (forall user_input,
     ICLAgent.process_request w self user_input st
       = (Return (config, filepath), st') ->
     files st' = (filepath, yaml_dump w ICLAgent.save_opts config) :: files st /\
     calls st' = S (calls st) /\
     exists t, filepath = save_path w self (Some (py "icl_config")) t) /\
  (forall current_config update_request,
     ICLAgent.update_configuration w self current_config update_request st
       = (Return (config, filepath), st') ->
     files st' = (filepath, yaml_dump w ICLAgent.save_opts config) :: files st /\
     calls st' = S (calls st) /\
     exists t, filepath = save_path w self (Some (py "icl_config_updated")) t).
Proof.
  split.
  - intros user_input H.
    apply (proj2 (try_log_reraise
                    (ICLAgent.process_request_try w self user_input)
                    (py "Error processing request: ") st)) in H.
    now apply pipeline_Return in H.
  - intros current_config update_request H.
    apply (proj2 (try_log_reraise
                    (ICLAgent.update_configuration_try w self current_config
                       update_request)
                    (py "Error updating configuration: ") st)) in H.
    now apply pipeline_Return in H.
Qed.

Lemma operations_save_what_they_return_witness :
  files (snd (ICLAgent.process_request
                (Fixture.world (Return Fixture.webapp_response) true (Return tt))
                Fixture.icl_self (py "Deploy a Node.js app") Fixture.st0))
  = [ (py "configs/icl_config_20250101_120000.yaml",
       yaml_dump (Fixture.world (Return Fixture.webapp_response) true (Return tt))
         ICLAgent.save_opts Fixture.webapp_doc) ].
Proof.
  assert (E : ICLAgent.process_request
                (Fixture.world (Return Fixture.webapp_response) true (Return tt))
                Fixture.icl_self (py "Deploy a Node.js app") Fixture.st0
              = (Return (Fixture.webapp_doc,
                         py "configs/icl_config_20250101_120000.yaml"),
                 snd (ICLAgent.process_request
                        (Fixture.world (Return Fixture.webapp_response) true
                           (Return tt))
                        Fixture.icl_self (py "Deploy a Node.js app")
                        Fixture.st0)))
    by (vm_compute; reflexivity).
  exact (proj1 (proj1 (@operations_save_what_they_return
                  (Fixture.world (Return Fixture.webapp_response) true (Return tt))
                  Fixture.icl_self Fixture.st0 _ _ _)
           (py "Deploy a Node.js app") E)).
Defined.

(** X15.  A malformed answer does not stop [process_request]: the
    parser's error document is what it returns, and what it saves. *)
Theorem process_request_saves_error_document (w : World)
    (self : ICLAgent.agent) (user_input text : str) (st : state) (e : exn) :
  generate_content w (calls st) [ICLAgent.request_prompt w self user_input]
    = Return text ->
  yaml_safe_load_all w (ICLAgent._clean_response text) = Raise e ->
  isinstance_YAMLError e = true ->
  (forall path content, open_write w path content = Return tt) ->
  let doc := error_document (datetime_str w (datetime_now w (ticks st))) in
  let run := ICLAgent.process_request w self user_input st in
  exists filepath,
    fst run = Return (doc, filepath) /\
    files (snd run) = (filepath, yaml_dump w ICLAgent.save_opts doc) :: files st.
Proof.
  intros Hg Hl He Hw doc run.
  assert (E : exists filepath st',
            ICLAgent.process_request_try w self user_input st
              = (Return (doc, filepath), st') /\
            files st' = (filepath, yaml_dump w ICLAgent.save_opts doc) :: files st).
  { unfold ICLAgent.process_request_try. rewrite pipeline_run. cbn zeta.
    rewrite Hg. rewrite (@parse_yaml_error w _ _ _ Hl He).
    rewrite save_yaml_run. cbn zeta. rewrite Hw.
    eexists _, _. split; reflexivity. }
  destruct E as (filepath & st' & E & Hf).
  exists filepath. unfold run, ICLAgent.process_request.
  erewrite try_Return by exact E. now split.
Qed.

Lemma process_request_saves_error_document_witness :
  fst (ICLAgent.process_request
         (Fixture.world (Return (py ": : :")) true (Return tt))
         Fixture.icl_self (py "Deploy a Node.js app") Fixture.st0)
  = Return (error_document (py "2025-01-01 12:00:00.000000"),
            py "configs/icl_config_20250101_120000.yaml").
Proof.
  destruct (@process_request_saves_error_document
              (Fixture.world (Return (py ": : :")) true (Return tt))
              Fixture.icl_self (py "Deploy a Node.js app") (py ": : :")
              Fixture.st0 Fixture.parser_error eq_refl eq_refl eq_refl
              (fun _ _ => eq_refl)) as (filepath & H & _).
  reflexivity.
Defined.

(** X16.  An answer of white space only makes [process_request] raise
    ValueError("Empty YAML content") (the loader finding no document in
    the empty text), and nothing is saved. *)
Theorem process_request_blank_answer (w : World) (self : ICLAgent.agent)
    (user_input text : str) (st : state) :
  generate_content w (calls st) [ICLAgent.request_prompt w self user_input]
    = Return text ->
  (forall c, In c text -> isspace c = true) ->
  yaml_safe_load_all w [] = Return [] ->
  fst (ICLAgent.process_request w self user_input st) = Raise empty_content /\
  files (snd (ICLAgent.process_request w self user_input st)) = files st.
Proof.
  intros Hg Hws Hl.
  assert (E : ICLAgent.process_request_try w self user_input st =
              (Raise empty_content,
               called (printed (log_line (py "Processing request: " ++ user_input)
                                         (py "think")) st))).
  { unfold ICLAgent.process_request_try. rewrite pipeline_run. cbn zeta.
    rewrite Hg. rewrite (clean_blank text Hws).
    now rewrite (@parse_no_document w _ _ Hl). }
  unfold ICLAgent.process_request.
  rewrite (proj1 (try_log_reraise
                    (ICLAgent.process_request_try w self user_input)
                    (py "Error processing request: ") st) _ _ E).
  now split.
Qed.

Lemma process_request_blank_answer_witness :
  fst (ICLAgent.process_request
         (Fixture.world (Return [SP; LF; LF]) true (Return tt))
         Fixture.icl_self (py "Deploy a Node.js app") Fixture.st0)
  = Raise empty_content.
Proof.
  apply (@process_request_blank_answer
           (Fixture.world (Return [SP; LF; LF]) true (Return tt))
           Fixture.icl_self (py "Deploy a Node.js app") [SP; LF; LF]
           Fixture.st0 eq_refl).
  - intros c H. cbv in H.
    repeat (destruct H as [H|H]; [subst c; reflexivity|]). contradiction.
  - reflexivity.
Defined.

End OperationsMore.

(* ================================================================== *)
(** ** The interactive handler, the scripted driver *)
(* ================================================================== *)

Section StreamlitEffects.
Variable w : World.

Lemma streamlit_parse_frame (content : str) (st st' : state) (r : outcome value) :
  StreamlitICLAgent._parse_yaml_safely w content st = (r, st') ->
  calls st' = calls st /\ files st' = files st /\ stdout st' = stdout st.
Proof.
  unfold StreamlitICLAgent._parse_yaml_safely, try_except, bind, lift,
         except_YAMLError.
  destruct (yaml_safe_load_all w content) as [[|d [|d' ds]]|e];
    try (intros [= _ <-]; auto).
  destruct (isinstance_YAMLError e); intros [= _ <-]; auto.
Qed.

Lemma streamlit_request_frame (self : StreamlitICLAgent.agent)
    (user_input : str) (st st' : state) (r : outcome value) :
  StreamlitICLAgent.process_request w self user_input st = (r, st') ->
  calls st' = S (calls st) /\ files st' = files st /\ stdout st' = stdout st.
Proof.
  unfold StreamlitICLAgent.process_request, try_except,
         StreamlitICLAgent.process_request_try.
  unfold bind at 1. rewrite model_generate_run.
  destruct (generate_content w (calls st) _) as [text|e].
  - match goal with
    | |- context [StreamlitICLAgent._parse_yaml_safely w ?c ?s] =>
        destruct (StreamlitICLAgent._parse_yaml_safely w c s)
          as [[d|e] st1] eqn:Ep
    end; apply streamlit_parse_frame in Ep as (Hc & Hf & Ho);
      intros [= _ <-]; cbn; rewrite ?Hc, ?Hf, ?Ho; auto.
  - intros [= _ <-]. auto.
Qed.

End StreamlitEffects.

Section DriverRuns.
Variable w : World.

Lemma operation_frame (A : Type) (body : M A) (prefix : str) (st st' : state)
    (r : outcome A) :
  try_except body
    (except_Exception (fun e =>
       ICLAgent.log (prefix ++ exn_msg e) (py "error") ;; raise e)) st = (r, st') ->
  exists st1 r1, body st = (r1, st1) /\ calls st' = calls st1 /\
                 files st' = files st1.
Proof.
  unfold try_except, except_Exception.
  destruct (body st) as [[a|e] st1].
  - intros [= _ <-]. eauto.
  - unfold bind. rewrite log_error. intros [= _ <-]. eauto.
Qed.

(** A failing run of the shared body writes no file. *)
Lemma pipeline_Raise (self : ICLAgent.agent) (message prompt name : str)
    (st st' : state) (e : exn) :
  (ICLAgent.log message (py "think") ;;
   text <- model_generate w [prompt] ;;
   config <- ICLAgent._parse_yaml_safely w (ICLAgent._clean_response text) ;;
   filepath <- ICLAgent._save_yaml w self config (Some name) ;;
   ret (config, filepath)) st = (Raise e, st') ->
  files st' = files st /\ calls st' = S (calls st).
Proof.
  rewrite pipeline_run. cbn zeta.
  destruct (generate_content w (calls st) [prompt]) as [text|e0];
    [|intros [= _ <-]; now split].
  match goal with
  | |- context [ICLAgent._parse_yaml_safely w ?c ?s] =>
      destruct (ICLAgent._parse_yaml_safely w c s) as [[k|e0] st2] eqn:Ep
  end; apply quiet_parse in Ep as [Hc Hf];
    [|intros [= _ <-]; rewrite Hc, Hf; now split].
  rewrite save_yaml_run. cbn zeta.
  match goal with
  | |- context [open_write w ?p ?c] => destruct (open_write w p c)
  end; [discriminate|].
  intros [= _ <-]. cbn. rewrite Hc, Hf. now split.
Qed.

End DriverRuns.

Section HandlersMore.

(** X17.  The interactive handler calls the remote model exactly once,
    writes no file and prints nothing, whatever the answer: what goes
    wrong goes to [st.error] and into the value returned. *)
Theorem streamlit_process_request_effects (w : World)
    (self : StreamlitICLAgent.agent) (user_input : str) (st : state) :
  let run := StreamlitICLAgent.process_request w self user_input st in
  calls (snd run) = S (calls st) /\ files (snd run) = files st /\
  stdout (snd run) = stdout st.
Proof.
  cbn zeta.
  destruct (StreamlitICLAgent.process_request w self user_input st)
    as [r st'] eqn:E.
  now apply streamlit_request_frame in E.
Qed.

(** X18.  [process_request] and [update_configuration] call the remote
    model exactly once, and when they raise they have written no
    file. *)
Theorem operations_effects (w : World) (self : ICLAgent.agent) (st : state) :
  (forall user_input,
     let run := ICLAgent.process_request w self user_input st in
     calls (snd run) = S (calls st) /\
     (forall e, fst run = Raise e -> files (snd run) = files st)) /\
  (forall current_config update_request,
     let run := ICLAgent.update_configuration w self current_config
                  update_request st in
     calls (snd run) = S (calls st) /\
     (forall e, fst run = Raise e -> files (snd run) = files st)).
Proof.
  split.
  - intros user_input. cbn zeta.
    destruct (ICLAgent.process_request w self user_input st) as [r st'] eqn:E.
    unfold ICLAgent.process_request in E.
    destruct (operation_frame _ _ _ E) as (st1 & r1 & Hb & Hc & Hf).
    cbn [fst snd]. rewrite Hc, Hf. pose proof Hb as Hb'.
    unfold ICLAgent.process_request_try in Hb.
    destruct r1 as [[config filepath]|e1].
    + apply pipeline_Return in Hb as (_ & Hcalls & _). split; [exact Hcalls|].
      intros e ->. unfold try_except in E. rewrite Hb' in E. discriminate E.
    + apply pipeline_Raise in Hb as (Hfiles & Hcalls). now split.
  - intros current_config update_request. cbn zeta.
    destruct (ICLAgent.update_configuration w self current_config
                update_request st) as [r st'] eqn:E.
    unfold ICLAgent.update_configuration in E.
    destruct (operation_frame _ _ _ E) as (st1 & r1 & Hb & Hc & Hf).
    cbn [fst snd]. rewrite Hc, Hf. pose proof Hb as Hb'.
    unfold ICLAgent.update_configuration_try in Hb.
    destruct r1 as [[config filepath]|e1].
    + apply pipeline_Return in Hb as (_ & Hcalls & _). split; [exact Hcalls|].
      intros e ->. unfold try_except in E. rewrite Hb' in E. discriminate E.
    + apply pipeline_Raise in Hb as (Hfiles & Hcalls). now split.
Qed.

Lemma operations_effects_witness :
  files (snd (ICLAgent.process_request
                (Fixture.world (Raise Fixture.transport_error) true (Return tt))
                Fixture.icl_self (py "Deploy a Node.js app") Fixture.st0))
  = [].
Proof.
  apply (proj2 (proj1 (@operations_effects
                         (Fixture.world (Raise Fixture.transport_error) true
                            (Return tt))
                         Fixture.icl_self Fixture.st0)
                  (py "Deploy a Node.js app"))
           Fixture.transport_error).
  reflexivity.
Defined.

End HandlersMore.

Section DriverMore.

(** X19.  When the scripted driver returns, it has written exactly two
    files under "configs": first icl_config_<timestamp>.yaml with the
    configuration the request returned, then
    icl_config_updated_<timestamp>.yaml with the updated one; and it has
    called the remote model two or three times (three when the
    knowledge extraction reached the model). *)
Theorem icl_agent_success (w : World) (api_key : str) (st st' : state) :
  Driver.icl_agent w api_key st = (Return tt, st') ->
  exists config filepath updated_config updated_filepath t t',
    files st' = (updated_filepath, yaml_dump w ICLAgent.save_opts updated_config)
                :: (filepath, yaml_dump w ICLAgent.save_opts config)
                :: files st /\
    filepath = path_join (py "configs")
                 (py "icl_config_" ++ strftime w t (py "%Y%m%d_%H%M%S")
                  ++ py ".yaml") /\
    updated_filepath = path_join (py "configs")
                 (py "icl_config_updated_" ++ strftime w t' (py "%Y%m%d_%H%M%S")
                  ++ py ".yaml") /\
    (calls st' = 2 + calls st \/ calls st' = 3 + calls st).
Proof.
  unfold Driver.icl_agent. intros H.
  assert (Hb : Driver.icl_agent_try w api_key st = (Return tt, st')).
  { unfold try_except in H.
    destruct (Driver.icl_agent_try w api_key st) as [[[]|e] st1];
      [exact H|].
    unfold except_Exception, bind, print, raise in H. discriminate H. }
  clear H. unfold Driver.icl_agent_try in Hb.
  apply bind_Return_inv in Hb as (a & s1 & Hinit & Hb).
  apply bind_Return_inv in Hb as (u1 & s2 & Hp1 & Hb).
  apply bind_Return_inv in Hb as ([config filepath] & s3 & Hreq & Hb).
  apply bind_Return_inv in Hb as (u2 & s4 & Hp2 & Hb).
  apply bind_Return_inv in Hb as (u3 & s5 & Hp3 & Hb).
  apply bind_Return_inv in Hb as ([config' filepath'] & s6 & Hupd & Hb).
  apply bind_Return_inv in Hb as (u4 & s7 & Hp4 & Hb).
  injection Hb as <-.
  (* construction *)
  pose proof (init_run w (py "icl.pdf") api_key (py "configs") st) as Hi.
  destruct (makedirs w (py "configs")); [|congruence].
  destruct Hi as (ag & s1' & Hi & _ & Hout & Hf1 & Hc1).
  rewrite Hinit in Hi. injection Hi as <- <-.
  (* the request and the update *)
  apply (proj2 (try_log_reraise _ _ s2)) in Hreq.
  apply pipeline_Return in Hreq as (Hf3 & Hc3 & t & Ht).
  apply (proj2 (try_log_reraise _ _ s5)) in Hupd.
  apply pipeline_Return in Hupd as (Hf6 & Hc6 & t' & Ht').
  (* the lines printed in between *)
  unfold print in Hp1, Hp2, Hp3, Hp4.
  injection Hp1 as _ <-. injection Hp2 as _ <-. injection Hp3 as _ <-.
  injection Hp4 as _ <-.
  cbn [fst snd] in *.
  exists config, filepath, config', filepath', t, t'.
  cbn [files calls] in *. rewrite Hf6, Hf3, Hf1, Hc6, Hc3.
  unfold save_path in Ht, Ht'. rewrite Hout in Ht, Ht'.
  repeat split; [exact Ht | exact Ht' | lia].
Qed.

Lemma icl_agent_success_witness :
  List.length
    (files (snd (Driver.icl_agent
                   (Fixture.world (Return Fixture.webapp_response) true (Return tt))
                   (py "key") Fixture.st0))) = 2.
Proof.
  assert (E : Driver.icl_agent
                (Fixture.world (Return Fixture.webapp_response) true (Return tt))
                (py "key") Fixture.st0
              = (Return tt,
                 snd (Driver.icl_agent
                        (Fixture.world (Return Fixture.webapp_response) true
                           (Return tt))
                        (py "key") Fixture.st0)))
    by (vm_compute; reflexivity).
  destruct (@icl_agent_success
              (Fixture.world (Return Fixture.webapp_response) true (Return tt))
              (py "key") Fixture.st0 _ E)
    as (c & p & c' & p' & t & t' & Hf & _).
  rewrite Hf. reflexivity.
Defined.

(** X20.  When the scripted driver raises, the exception is the one its
    [try] block raised and the last line printed is the "Fatal Error"
    line with that exception's message; in particular, when "configs"
    cannot be made, that line is all the run prints, and the remote
    model is never called. *)
Theorem icl_agent_fatal (w : World) (api_key : str) (st : state) :
  (forall e st', Driver.icl_agent w api_key st = (Raise e, st') ->
     exists st1,
       Driver.icl_agent_try w api_key st = (Raise e, st1) /\
       st' = printed ([LF] ++ Driver.cross_icon ++ py " Fatal Error: "
                      ++ exn_msg e) st1) /\
  (forall e, makedirs w (py "configs") = Raise e ->
     Driver.icl_agent w api_key st =
     (Raise e, printed ([LF] ++ Driver.cross_icon ++ py " Fatal Error: "
                        ++ exn_msg e) st)).
Proof.
  split.
  - intros e st' H. unfold Driver.icl_agent, try_except in H.
    destruct (Driver.icl_agent_try w api_key st) as [[u|e1] st1];
      [discriminate H|].
    unfold except_Exception, bind, print, raise in H.
    injection H as <- <-. exists st1. now split.
  - intros e He.
    pose proof (init_run w (py "icl.pdf") api_key (py "configs") st) as Hi.
    rewrite He in Hi.
    unfold Driver.icl_agent, try_except, Driver.icl_agent_try.
    unfold bind at 1. rewrite Hi. reflexivity.
Qed.

Lemma icl_agent_fatal_witness :
  fst (Driver.icl_agent
         (mk_World (fun _ : nat => tt) (fun _ => []) (fun _ _ => [])
                   Fixture.load Fixture.dump (fun _ _ => Return [])
                   (fun _ => true) (fun _ => Return [])
                   (fun _ => Raise Fixture.disk_error) (fun _ _ => Return tt))
         (py "key") Fixture.st0)
  = Raise Fixture.disk_error.
Proof.
  rewrite (proj2 (@icl_agent_fatal
                    (mk_World (fun _ : nat => tt) (fun _ => []) (fun _ _ => [])
                       Fixture.load Fixture.dump (fun _ _ => Return [])
                       (fun _ => true) (fun _ => Return [])
                       (fun _ => Raise Fixture.disk_error) (fun _ _ => Return tt))
                    (py "key") Fixture.st0) Fixture.disk_error eq_refl).
  reflexivity.
Defined.

End DriverMore.

(* ================================================================== *)
(** ** The download link *)
(* ================================================================== *)

Section Encoding.

Lemma div_below (c k : N) : (c < 64 * k -> c / 64 < k)%N.
Proof. intros H. apply N.Div0.div_lt_upper_bound; exact H. Qed.

Lemma mod64_below (c : N) : (c mod 64 < 64)%N.
Proof. apply N.mod_lt. discriminate. Qed.

Lemma utf8_char_bytes (c : char) (bs : list N) :
  App.utf8_char c = Some bs -> Forall (fun b => (b < 256)%N) bs.
Proof.
  assert (Hsome : forall l : list N,
            Forall (fun b => (b < 256)%N) l -> Some l = Some bs ->
            Forall (fun b => (b < 256)%N) bs) by (intros l Hl E; congruence).
  pose proof (mod64_below c) as M0.
  pose proof (mod64_below (c / 64)) as M1.
  pose proof (mod64_below (c / 4096)) as M2.
  unfold App.utf8_char.
  destruct (N.ltb_spec c 0x80).
  { apply Hsome. repeat (apply Forall_cons; [lia|]). apply Forall_nil. }
  destruct (N.ltb_spec c 0x800).
  { pose proof (@div_below c 32 ltac:(lia)).
    apply Hsome. repeat (apply Forall_cons; [lia|]). apply Forall_nil. }
  destruct (N.ltb_spec c 0x10000).
  { destruct ((0xD800 <=? c)%N && (c <=? 0xDFFF)%N); [discriminate|].
    assert (c / 4096 < 16)%N by (apply N.Div0.div_lt_upper_bound; lia).
    apply Hsome. repeat (apply Forall_cons; [lia|]). apply Forall_nil. }
  destruct (N.ltb_spec c 0x110000); [|discriminate].
  assert (c / 262144 < 8)%N by (apply N.Div0.div_lt_upper_bound; lia).
  apply Hsome. repeat (apply Forall_cons; [lia|]). apply Forall_nil.
Qed.

Lemma utf8_char_encodable (c : char) :
  App.utf8_char c = None <-> encodable c = false.
Proof.
  unfold App.utf8_char, encodable.
  destruct (N.ltb_spec c 0x80), (N.ltb_spec c 0x800), (N.ltb_spec c 0x10000),
           (N.ltb_spec c 0x110000), (N.leb_spec 0xD800 c), (N.leb_spec c 0xDFFF),
           (N.ltb_spec c 0xD800), (N.ltb_spec 0xDFFF c);
    cbn; split; intros; try discriminate; try reflexivity; lia.
Qed.

(** [encode] fails exactly on a text with a character that has no
    encoding. *)
Lemma encode_spec (s : str) :
  match App.encode s with
  | Return bs => forallb encodable s = true /\ Forall (fun b => (b < 256)%N) bs
  | Raise e => forallb encodable s = false /\ e = App.encode_error
  end.
Proof.
  induction s as [|c s IH]; [now split|].
  cbn [App.encode forallb].
  destruct (App.utf8_char c) as [bs|] eqn:Ec.
  - assert (Hv : encodable c = true).
    { destruct (encodable c) eqn:E; [reflexivity|].
      apply utf8_char_encodable in E. congruence. }
    rewrite Hv. cbn [andb].
    destruct (App.encode s) as [rest|e].
    + destruct IH as [H1 H2]. split; [exact H1|].
      apply Forall_app. split; [eapply utf8_char_bytes; eauto | exact H2].
    + exact IH.
  - apply utf8_char_encodable in Ec. rewrite Ec. now split.
Qed.

Lemma b64_digit_In (i : N) : (i < 64)%N -> In (App.b64_digit i) App.b64_alphabet.
Proof.
  intros H. unfold App.b64_digit. apply nth_In.
  change (List.length App.b64_alphabet) with 64. lia.
Qed.

Lemma b64encode_steps (n : nat) (bs : list N) :
  List.length bs <= n ->
  Forall (fun b => (b < 256)%N) bs ->
  Forall (fun c => In c App.b64_alphabet \/ c = App.EQ) (App.b64encode bs) /\
  List.length (App.b64encode bs) = 4 * ((List.length bs + 2) / 3).
Proof.
  revert bs; induction n as [|n IH]; intros bs Hn Hb.
  - destruct bs; [now split | simpl in Hn; lia].
  - destruct bs as [|a [|b [|c rest]]]; [now split| | |].
    + inversion Hb as [|? ? Ha _]; subst. split; [|reflexivity].
      assert (a / 4 < 64)%N by (apply N.Div0.div_lt_upper_bound; lia).
      assert (a mod 4 < 4)%N by (apply N.mod_lt; discriminate).
      cbn [App.b64encode].
      repeat (apply Forall_cons; [first [left; apply b64_digit_In; lia | now right]|]);
        apply Forall_nil.
    + inversion Hb as [|? ? Ha Hb']; subst.
      inversion Hb' as [|? ? Hb0 _]; subst. split; [|reflexivity].
      assert (a / 4 < 64)%N by (apply N.Div0.div_lt_upper_bound; lia).
      assert (a mod 4 < 4)%N by (apply N.mod_lt; discriminate).
      assert (b / 16 < 16)%N by (apply N.Div0.div_lt_upper_bound; lia).
      assert (b mod 16 < 16)%N by (apply N.mod_lt; discriminate).
      cbn [App.b64encode].
      repeat (apply Forall_cons; [first [left; apply b64_digit_In; lia | now right]|]);
        apply Forall_nil.
    + inversion Hb as [|? ? Ha Hb']; subst.
      inversion Hb' as [|? ? Hb0 Hb'']; subst.
      inversion Hb'' as [|? ? Hc0 Hrest]; subst.
      destruct (IH rest) as [IH1 IH2]; [simpl in Hn; lia | exact Hrest |].
      assert (a / 4 < 64)%N by (apply N.Div0.div_lt_upper_bound; lia).
      assert (a mod 4 < 4)%N by (apply N.mod_lt; discriminate).
      assert (b / 16 < 16)%N by (apply N.Div0.div_lt_upper_bound; lia).
      assert (b mod 16 < 16)%N by (apply N.mod_lt; discriminate).
      assert (c / 64 < 4)%N by (apply N.Div0.div_lt_upper_bound; lia).
      pose proof (mod64_below c).
      cbn [App.b64encode]. split.
      * repeat (apply Forall_cons; [left; apply b64_digit_In; lia|]). exact IH1.
      * cbn [List.length]. rewrite IH2.
        replace (S (S (S (List.length rest))) + 2)
          with (List.length rest + 2 + 1 * 3) by lia.
        rewrite Nat.div_add by discriminate. lia.
Qed.

End Encoding.

Section LinkRuns.
Variable w : World.

Lemma link_run (yaml_data : value) (filename : str) (st : state) :
  App.get_yaml_download_link w yaml_data filename st =
  match App.encode (yaml_dump w App.link_opts yaml_data) with
  | Return bytes =>
      (Return (App.link_head ++ App.b64encode bytes ++ App.link_tail filename), st)
  | Raise e =>
      (Return [], reported (py "Error generating download link: " ++ exn_msg e) st)
  end.
Proof.
  unfold App.get_yaml_download_link, try_except, bind, lift.
  destruct (App.encode (yaml_dump w App.link_opts yaml_data)); reflexivity.
Qed.

End LinkRuns.

Section LinkMore.

(** X21.  [get_yaml_download_link] never raises.  When every character
    of the serialised data has a UTF-8 encoding it returns a link and
    leaves the state alone; when one has none (a lone surrogate) it
    reports the error to [st.error] and returns the empty string. *)
Theorem download_link_or_empty (w : World) (yaml_data : value)
    (filename : str) (st : state) :
  if forallb encodable (yaml_dump w App.link_opts yaml_data) then
    exists payload,
      App.get_yaml_download_link w yaml_data filename st =
      (Return (App.link_head ++ payload ++ App.link_tail filename), st)
  else
    exists message,
      App.get_yaml_download_link w yaml_data filename st =
      (Return [], reported message st).
Proof.
  rewrite link_run.
  pose proof (encode_spec (yaml_dump w App.link_opts yaml_data)) as H.
  destruct (App.encode (yaml_dump w App.link_opts yaml_data)) as [bs|e].
  - destruct H as [-> _]. eauto.
  - destruct H as [-> _]. eauto.
Qed.

(** X22.  In a link that is returned, what stands between the fixed
    head and the fixed tail is well-formed base64: only digits of the
    base64 alphabet and '=', in a number that is a multiple of four; so
    no double quote, and the href attribute ends where the code closes
    it. *)
Theorem download_link_payload (w : World) (yaml_data : value)
    (filename : str) (st : state) (bytes : list N) :
  App.encode (yaml_dump w App.link_opts yaml_data) = Return bytes ->
  fst (App.get_yaml_download_link w yaml_data filename st) =
    Return (App.link_head ++ App.b64encode bytes ++ App.link_tail filename) /\
  Forall (fun c => In c App.b64_alphabet \/ c = App.EQ) (App.b64encode bytes) /\
  ~ In App.DQ (App.b64encode bytes) /\
  List.length (App.b64encode bytes) = 4 * ((List.length bytes + 2) / 3).
Proof.
  intros H. rewrite link_run, H. split; [reflexivity|].
  pose proof (encode_spec (yaml_dump w App.link_opts yaml_data)) as Hs.
  rewrite H in Hs. destruct Hs as [_ Hb].
  destruct (b64encode_steps (le_n (List.length bytes)) Hb) as [Hd Hl].
  split; [exact Hd|]. split; [|exact Hl].
  intros Hq. rewrite Forall_forall in Hd. destruct (Hd _ Hq) as [Ha|He].
  - cbv in Ha. repeat (destruct Ha as [Ha|Ha]; [discriminate Ha|]). exact Ha.
  - discriminate He.
Qed.

Lemma download_link_payload_witness :
  fst (App.get_yaml_download_link (Fixture.world (Return []) true (Return tt))
         Fixture.cache_doc (py "config.yaml") Fixture.st0)
  = Return (App.link_head ++ py "Y29tcG9uZW50OiBjYWNoZQptZW1vcnk6IDJHQgo="
            ++ App.link_tail (py "config.yaml")).
Proof.
  apply (proj1 (@download_link_payload
                  (Fixture.world (Return []) true (Return tt))
                  Fixture.cache_doc (py "config.yaml") Fixture.st0
                  (map N_of_ascii
                     (list_ascii_of_string "component: cache
memory: 2GB
"))
                  eq_refl)).
Defined.

End LinkMore.

(* ================================================================== *)
(** ** The page *)
(* ================================================================== *)

Section PageRuns.
Variable w : World.

Lemma streamlit_request_returns (self : StreamlitICLAgent.agent)
    (user_input : str) (st : state) :
  exists d st',
    StreamlitICLAgent.process_request w self user_input st = (Return d, st').
Proof.
  unfold StreamlitICLAgent.process_request, try_except.
  destruct (StreamlitICLAgent.process_request_try w self user_input st)
    as [[d|e] st1]; eauto.
  unfold except_Exception, bind, st_error, ret. eauto.
Qed.

Lemma link_returns (yaml_data : value) (filename : str) (st : state) :
  exists link st',
    App.get_yaml_download_link w yaml_data filename st = (Return link, st') /\
    calls st' = calls st /\ files st' = files st /\ stdout st' = stdout st.
Proof.
  rewrite link_run.
  destruct (App.encode (yaml_dump w App.link_opts yaml_data));
    eexists _, _; repeat split; reflexivity.
Qed.

Lemma main_run (s : App.session) (user_input : str) (pressed : bool)
    (st : state) :
  App.main w s user_input pressed st =
  if pressed && truthy user_input then
    match StreamlitICLAgent.process_request w (session_agent s) user_input st with
    | (Raise e, st1) => (Raise e, st1)
    | (Return config, st1) =>
        match App.get_yaml_download_link w config (py "config.yaml") st1 with
        | (Raise e, st2) => (Raise e, st2)
        | (Return link, st2) =>
            let history :=
              ((session_history s ++ [(py "user", user_input)])
               ++ [(py "bot", yaml_dump w App.link_opts config)])
              ++ [(py "download", link)] in
            (Return (App.mk_session (Some (session_agent s)) (Some history),
                     App.page_top
                     ++ [(App.Column 2,
                          App.Spinner ([0x1f504]%N
                                       ++ py " Generating configuration..."))]
                     ++ flat_map App.show_message history), st2)
        end
    end
  else
    (Return (App.mk_session (Some (session_agent s)) (Some (session_history s)),
             App.page_top ++ flat_map App.show_message (session_history s)), st).
Proof.
  unfold App.main, session_agent, session_history.
  unfold bind at 1.
  assert (E : (match App.agent s with
               | Some a => ret a
               | None => StreamlitICLAgent.__init__
               end) st
              = (Return match App.agent s with
                        | Some a => a
                        | None => StreamlitICLAgent.mk_agent default_knowledge
                        end, st)) by (destruct (App.agent s); reflexivity).
  rewrite E.
  destruct (pressed && truthy user_input); [|reflexivity].
  unfold bind at 1.
  destruct (StreamlitICLAgent.process_request w _ user_input st)
    as [[config|e] st1]; [|reflexivity].
  unfold bind at 1.
  destruct (App.get_yaml_download_link w config (py "config.yaml") st1)
    as [[link|e] st2]; reflexivity.
Qed.

End PageRuns.

Section PageMore.

(** X23.  A run of the page never raises and only ever appends to the
    chat history.  When the button was pressed on a text that is not
    empty, it appends three entries, in this order: the user's text as
    typed, the serialisation of what the request handler returned, and
    the download link; the remote model is called once.  Otherwise the
    history is as it was and nothing at all happens to the state.  In
    both cases the agent of the session is kept (made on the first
    run), no file is written and nothing is printed. *)
Theorem main_appends_to_history (w : World) (s : App.session)
    (user_input : str) (pressed : bool) (st : state) :
  exists added page st',
    App.main w s user_input pressed st =
    (Return (App.mk_session (Some (session_agent s))
                            (Some (session_history s ++ added)), page), st') /\
    (if pressed && truthy user_input then
       exists config link,
         added = [ (py "user", user_input);
                   (py "bot", yaml_dump w App.link_opts config);
                   (py "download", link) ] /\
         fst (StreamlitICLAgent.process_request w (session_agent s)
                user_input st) = Return config /\
         calls st' = S (calls st)
     else added = [] /\ st' = st) /\
    files st' = files st /\ stdout st' = stdout st.
Proof.
  rewrite main_run.
  destruct (pressed && truthy user_input).
  - destruct (streamlit_request_returns w (session_agent s) user_input st)
      as (config & st1 & Hreq).
    pose proof (streamlit_request_frame _ _ _ _ Hreq) as (Hc1 & Hf1 & Ho1).
    rewrite Hreq.
    destruct (link_returns w config (py "config.yaml") st1)
      as (link & st2 & Hlink & Hc2 & Hf2 & Ho2).
    rewrite Hlink. cbn zeta.
    eexists [_; _; _], _, st2. split.
    + rewrite <- !app_assoc. reflexivity.
    + split; [|split; congruence].
      exists config, link. repeat split. congruence.
  - eexists [], _, st. rewrite app_nil_r. repeat split.
Qed.

End PageMore.
